(** * SeerrBridge: the TORRENT_FILTER_REGEX format model and priority editor

    A shallow embedding of [src/lib/env-utils.ts] (format detection, parsing,
    validation and serialisation of the dual-format regex-filter value) and of
    the list logic of [src/components/regex-priority-editor.tsx].

    JavaScript strings are sequences of UTF-16 code units; they are modelled
    as [list N].  The host functions the source calls ([String.prototype.trim],
    [JSON.parse], [JSON.stringify]) are written out after ECMA-262; whether
    [new RegExp(p)] returns or throws is a parameter of the development. *)

From Stdlib Require Import NArith ZArith Ascii String Lia.
From stdpp Require Import gmap list strings pretty.

Local Open Scope N_scope.

(** ** JavaScript strings *)

Abbreviation jsstring := (list N).

(** The code units of an ASCII / Latin-1 literal. *)
Fixpoint js (s : string) : jsstring :=
  match s with
  | EmptyString => []
  | String a r => N_of_ascii a :: js r
  end.

(** Named code units used below. *)
Abbreviation QUOTE := 0x22 (only parsing).
Abbreviation BACKSLASH := 0x5C (only parsing).
Abbreviation LBRACKET := 0x5B (only parsing).
Abbreviation RBRACKET := 0x5D (only parsing).
Abbreviation LBRACE := 0x7B (only parsing).
Abbreviation RBRACE := 0x7D (only parsing).
Abbreviation COMMA := 0x2C (only parsing).
Abbreviation COLON := 0x3A (only parsing).

(** ** Completions: a call either returns normally or throws *)

Inductive jserror : Type := SyntaxError | TypeError.

Inductive completion (A : Type) : Type :=
| Normal (a : A)
| Throw (e : jserror).
Arguments Normal {A} a.
Arguments Throw {A} e.

Global Instance completion_ret : MRet completion := fun A a => Normal a.
Global Instance completion_bind : MBind completion := fun A B f m =>
  match m with
  | Normal a => f a
  | Throw e => Throw e
  end.

(** [try { body } catch { handler }] *)
Definition try_catch {A} (body : completion A) (handler : completion A)
  : completion A :=
  match body with
  | Normal a => Normal a
  | Throw _ => handler
  end.

Module Host.

(** *** String.prototype.trim, startsWith, endsWith *)

(** WhiteSpace and LineTerminator code points of ECMA-262 (all in the BMP):
    TAB, LF, VT, FF, CR, SP, NBSP, the Space_Separator category, LS, PS and
    ZWNBSP. *)
Definition isWhiteSpace (c : N) : bool :=
  (c =? 0x09) || (c =? 0x0A) || (c =? 0x0B) || (c =? 0x0C) || (c =? 0x0D)
  || (c =? 0x20) || (c =? 0xA0) || (c =? 0x1680)
  || ((0x2000 <=? c) && (c <=? 0x200A))
  || (c =? 0x2028) || (c =? 0x2029) || (c =? 0x202F) || (c =? 0x205F)
  || (c =? 0x3000) || (c =? 0xFEFF).

Fixpoint trimStart (s : jsstring) : jsstring :=
  match s with
  | [] => []
  | c :: r => if isWhiteSpace c then trimStart r else s
  end.

Definition trimEnd (s : jsstring) : jsstring := rev (trimStart (rev s)).

Definition trim (s : jsstring) : jsstring := trimEnd (trimStart s).

(** [s.startsWith(c)] and [s.endsWith(c)] for a one-unit search string. *)
Definition startsWith (s : jsstring) (c : N) : bool :=
  match s with
  | d :: _ => d =? c
  | [] => false
  end.

Definition endsWith (s : jsstring) (c : N) : bool := startsWith (rev s) c.

(** *** JSON values *)

(** A number keeps its source text: its IEEE value is a function of it, and
    the code only ever asks for the type of a decoded value.  An object keeps
    its members in source order. *)
#[warnings="-register-all"]
Inductive json : Type :=
| JNull
| JBool (b : bool)
| JNumber (lexeme : jsstring)
| JString (s : jsstring)
| JArray (elements : list json)
| JObject (members : list (jsstring * json)).

Definition Array_isArray (v : json) : bool :=
  match v with
  | JArray _ => true
  | _ => false
  end.

(** [typeof v === 'string'] *)
Definition typeof_string (v : json) : bool :=
  match v with
  | JString _ => true
  | _ => false
  end.

(** *** JSON.parse *)

Definition isJSONWhiteSpace (c : N) : bool :=
  (c =? 0x09) || (c =? 0x0A) || (c =? 0x0D) || (c =? 0x20).

Fixpoint skip_ws (s : jsstring) : jsstring :=
  match s with
  | [] => []
  | c :: r => if isJSONWhiteSpace c then skip_ws r else s
  end.

Definition hex_val (c : N) : option N :=
  if (0x30 <=? c) && (c <=? 0x39) then Some (c - 0x30)
  else if (0x61 <=? c) && (c <=? 0x66) then Some (c - 0x61 + 10)
  else if (0x41 <=? c) && (c <=? 0x46) then Some (c - 0x41 + 10)
  else None.

Definition hex4 (h1 h2 h3 h4 : N) : option N :=
  a ← hex_val h1; b ← hex_val h2; c ← hex_val h3; d ← hex_val h4;
  Some (((a * 16 + b) * 16 + c) * 16 + d).

(** The code unit denoted by a one-letter escape: the quote, the backslash,
    the slash, and [b], [f], [n], [r], [t]. *)
Definition simple_escape (e : N) : option N :=
  if e =? QUOTE then Some QUOTE
  else if e =? BACKSLASH then Some BACKSLASH
  else if e =? 0x2F then Some 0x2F
  else if e =? 0x62 then Some 0x08
  else if e =? 0x66 then Some 0x0C
  else if e =? 0x6E then Some 0x0A
  else if e =? 0x72 then Some 0x0D
  else if e =? 0x74 then Some 0x09
  else None.

Definition cons_fst {A B} (a : A) (r : option (list A * B))
  : option (list A * B) :=
  '(l, b) ← r; Some (a :: l, b).

(** The characters of a string literal after its opening quote, up to and
    including the closing quote. *)
Fixpoint parse_string_body (s : jsstring) : option (jsstring * jsstring) :=
  match s with
  | [] => None
  | c :: r =>
    if c =? QUOTE then Some ([], r)
    else if c =? BACKSLASH then
      match r with
      | [] => None
      | e :: r' =>
        if e =? 0x75 then  (* u and four hexadecimal digits *)
          match r' with
          | h1 :: h2 :: h3 :: h4 :: r'' =>
            match hex4 h1 h2 h3 h4 with
            | Some u => cons_fst u (parse_string_body r'')
            | None => None
            end
          | _ => None
          end
        else
          match simple_escape e with
          | Some u => cons_fst u (parse_string_body r')
          | None => None
          end
      end
    else if c <? 0x20 then None
    else cons_fst c (parse_string_body r)
  end.

Fixpoint strip_prefix (p s : jsstring) : option jsstring :=
  match p with
  | [] => Some s
  | a :: p' =>
    match s with
    | [] => None
    | b :: s' => if a =? b then strip_prefix p' s' else None
    end
  end.

Definition is_digit (c : N) : bool := (0x30 <=? c) && (c <=? 0x39).

Fixpoint skip_digits (s : jsstring) : jsstring :=
  match s with
  | [] => []
  | c :: r => if is_digit c then skip_digits r else s
  end.

(** One or more digits. *)
Definition lex_digits1 (s : jsstring) : option jsstring :=
  match s with
  | [] => None
  | d :: r => if is_digit d then Some (skip_digits r) else None
  end.

(** [0], or a non-zero digit followed by digits. *)
Definition lex_int (s : jsstring) : option jsstring :=
  match s with
  | [] => None
  | d :: r =>
    if d =? 0x30 then Some r
    else if is_digit d then Some (skip_digits r)
    else None
  end.

(** An optional fraction: a point and digits. *)
Definition lex_frac (s : jsstring) : option jsstring :=
  match s with
  | [] => Some s
  | d :: r => if d =? 0x2E then lex_digits1 r else Some s
  end.

(** An optional exponent: [e] or [E], an optional sign, digits. *)
Definition lex_exp (s : jsstring) : option jsstring :=
  match s with
  | [] => Some s
  | d :: r =>
    if (d =? 0x65) || (d =? 0x45) then
      match r with
      | [] => None
      | sign :: r' =>
        if (sign =? 0x2B) || (sign =? 0x2D) then lex_digits1 r'
        else lex_digits1 r
      end
    else Some s
  end.

(** The text left after a JSON number at the head of [s]. *)
Definition lex_number (s : jsstring) : option jsstring :=
  let s1 := match s with
            | [] => s
            | d :: r => if d =? 0x2D then r else s
            end in
  s2 ← lex_int s1; s3 ← lex_frac s2; lex_exp s3.

(** The recursive descent.  [parse_value] expects no leading white space;
    [parse_elements] reads [value (, value)* ]] and [parse_members] reads
    [string : value (, string : value)* }], both after the opening bracket
    and its white space. *)
Fixpoint parse_value (fuel : nat) (s : jsstring) : option (json * jsstring) :=
  match fuel with
  | O => None
  | S f =>
    match s with
    | [] => None
    | c :: r =>
      if c =? LBRACKET then
        match skip_ws r with
        | [] => None
        | d :: r' =>
          if d =? RBRACKET then Some (JArray [], r')
          else '(vs, r'') ← parse_elements f (d :: r'); Some (JArray vs, r'')
        end
      else if c =? LBRACE then
        match skip_ws r with
        | [] => None
        | d :: r' =>
          if d =? RBRACE then Some (JObject [], r')
          else '(ms, r'') ← parse_members f (d :: r'); Some (JObject ms, r'')
        end
      else if c =? QUOTE then
        '(str, r') ← parse_string_body r; Some (JString str, r')
      else if c =? 0x74 then  (* t *)
        r' ← strip_prefix (js "rue") r; Some (JBool true, r')
      else if c =? 0x66 then  (* f *)
        r' ← strip_prefix (js "alse") r; Some (JBool false, r')
      else if c =? 0x6E then  (* n *)
        r' ← strip_prefix (js "ull") r; Some (JNull, r')
      else
        r' ← lex_number s;
        Some (JNumber (take (length s - length r') s), r')
    end
  end
with parse_elements (fuel : nat) (s : jsstring)
  : option (list json * jsstring) :=
  match fuel with
  | O => None
  | S f =>
    '(v, r) ← parse_value f s;
    match skip_ws r with
    | [] => None
    | d :: r' =>
      if d =? COMMA then
        '(vs, r'') ← parse_elements f (skip_ws r'); Some (v :: vs, r'')
      else if d =? RBRACKET then Some ([v], r')
      else None
    end
  end
with parse_members (fuel : nat) (s : jsstring)
  : option (list (jsstring * json) * jsstring) :=
  match fuel with
  | O => None
  | S f =>
    match s with
    | [] => None
    | q :: r0 =>
      if q =? QUOTE then
        '(k, r1) ← parse_string_body r0;
        match skip_ws r1 with
        | [] => None
        | col :: r2 =>
          if col =? COLON then
            '(v, r3) ← parse_value f (skip_ws r2);
            match skip_ws r3 with
            | [] => None
            | d :: r4 =>
              if d =? COMMA then
                '(ms, r5) ← parse_members f (skip_ws r4);
                Some ((k, v) :: ms, r5)
              else if d =? RBRACE then Some ([(k, v)], r4)
              else None
            end
          else None
        end
      else None
    end
  end.

(** Two units of fuel per code unit are enough for every text
    ([parse_value_fuel]); the host's bound on the nesting depth is not
    modelled. *)
Definition parse_fuel (text : jsstring) : nat := S (2 * length text).

(** [JSON.parse(text)]: white space, one value, white space, end of text;
    anything else throws a SyntaxError. *)
Definition JSON_parse (text : jsstring) : completion json :=
  match parse_value (parse_fuel text) (skip_ws text) with
  | Some (v, r) =>
    match skip_ws r with
    | [] => Normal v
    | _ :: _ => Throw SyntaxError
    end
  | None => Throw SyntaxError
  end.

(** *** JSON.stringify on an array of strings *)

Definition hex_digit (d : N) : N := if d <? 10 then 0x30 + d else 0x61 + (d - 10).

(** [\uXXXX] with lower-case hexadecimal digits. *)
Definition UnicodeEscape (c : N) : jsstring :=
  [BACKSLASH; 0x75; hex_digit (c / 4096 mod 16); hex_digit (c / 256 mod 16);
   hex_digit (c / 16 mod 16); hex_digit (c mod 16)].

Definition is_leading_surrogate (c : N) : bool := (0xD800 <=? c) && (c <=? 0xDBFF).
Definition is_trailing_surrogate (c : N) : bool := (0xDC00 <=? c) && (c <=? 0xDFFF).

(** A code unit that is not a surrogate: the two-letter escapes of
    backspace, tab, line feed, form feed, carriage return, quote and
    backslash; [\uXXXX] for the other control characters; the unit itself
    otherwise. *)
Definition quote_unit (c : N) : jsstring :=
  if c =? 0x08 then [BACKSLASH; 0x62]
  else if c =? 0x09 then [BACKSLASH; 0x74]
  else if c =? 0x0A then [BACKSLASH; 0x6E]
  else if c =? 0x0C then [BACKSLASH; 0x66]
  else if c =? 0x0D then [BACKSLASH; 0x72]
  else if c =? QUOTE then [BACKSLASH; QUOTE]
  else if c =? BACKSLASH then [BACKSLASH; BACKSLASH]
  else if c <? 0x20 then UnicodeEscape c
  else [c].

(** QuoteJSONString walks the code points of the string: a surrogate pair is
    copied, a lone surrogate is escaped. *)
Fixpoint quote_units (s : jsstring) : jsstring :=
  match s with
  | [] => []
  | c :: r =>
    if is_leading_surrogate c then
      match r with
      | [] => UnicodeEscape c
      | d :: r' =>
        if is_trailing_surrogate d then c :: d :: quote_units r'
        else UnicodeEscape c ++ quote_units r
      end
    else if is_trailing_surrogate c then UnicodeEscape c ++ quote_units r
    else quote_unit c ++ quote_units r
  end.

Definition QuoteJSONString (s : jsstring) : jsstring :=
  [QUOTE] ++ quote_units s ++ [QUOTE].

Fixpoint join_comma (parts : list jsstring) : jsstring :=
  match parts with
  | [] => []
  | [p] => p
  | p :: rest => p ++ COMMA :: join_comma rest
  end.

(** [JSON.stringify(a)] for an array [a] of strings. *)
Definition JSON_stringify (a : list jsstring) : jsstring :=
  [LBRACKET] ++ join_comma (map QuoteJSONString a) ++ [RBRACKET].

End Host.

(** ** The format model: src/lib/env-utils.ts *)

Module EnvUtils.
Import Host.

(** [RegexFormat = 'string' | 'array' | 'empty'] *)
Inductive RegexFormat : Type := FString | FArray | FEmpty.

Global Instance RegexFormat_eq_dec : EqDecision RegexFormat.
Proof. solve_decision. Defined.

Record ParsedRegexValue : Type := {
  format : RegexFormat;
  array : list jsstring;
  raw : jsstring;
  isValid : bool;
  error : option jsstring  (* [error?: string] *)
}.

(** The result of [validateRegexArray]: [{ isValid, errors }]. *)
Record ArrayValidation : Type := {
  allValid : bool;        (* the field [isValid] *)
  errors : list jsstring
}.

(** [!value] for [value : string | undefined | null]: [None] stands for
    [undefined] and [null]; the only falsy string is the empty one. *)
Definition falsy (value : option jsstring) : bool :=
  match value with
  | None => true
  | Some s => bool_decide (s = [])
  end.

(** [!value || value.trim() === ''], with [||] short-circuiting so that
    [trim] is only called on a string. *)
Definition blank (value : option jsstring) : bool :=
  falsy value ||
  match value with
  | None => true
  | Some s => bool_decide (trim s = [])
  end.

(** The strings of a decoded array, for [array: parsed]. *)
Definition strings_of (parsed : json) : list jsstring :=
  match parsed with
  | JArray items =>
    omap (fun item => match item with JString s => Some s | _ => None end) items
  | _ => []
  end.

(** [parsed.every(item => typeof item === 'string')] *)
Definition every_string (parsed : json) : bool :=
  match parsed with
  | JArray items => forallb typeof_string items
  | _ => false
  end.

(** [Pattern ${i + 1}: ...] *)
Definition pattern_label (i : nat) : jsstring := js "Pattern " ++ js (pretty (i + 1)%nat).

Definition msg_empty (i : nat) : jsstring := pattern_label i ++ js ": Empty pattern".
Definition msg_invalid (i : nat) : jsstring :=
  pattern_label i ++ js ": Invalid regex syntax".
Definition msg_duplicate (i : nat) (pattern : jsstring) : jsstring :=
  pattern_label i ++ js ": Duplicate pattern " ++ [QUOTE] ++ pattern ++ [QUOTE].

Section WithRegExp.

(** Whether [new RegExp(pattern)] returns (true) or throws a SyntaxError
    (false) under the host's regular-expression dialect. *)
Variable RegExp_compiles : jsstring -> bool.

Definition new_RegExp (pattern : jsstring) : completion unit :=
  if RegExp_compiles pattern then Normal tt else Throw SyntaxError.

Definition detectRegexFormat (value : option jsstring) : completion RegexFormat :=
  if blank value then mret FEmpty
  else
    let trimmed := trim (default [] value) in
    (* the [if] with its [try]: [Some f] is an early [return f] *)
    early ← (if startsWith trimmed LBRACKET && endsWith trimmed RBRACKET then
               try_catch
                 (parsed ← JSON_parse trimmed;
                  if Array_isArray parsed then mret (Some FArray) else mret None)
                 (mret None)
             else mret None);
    match early with
    | Some f => mret f
    | None => mret FString
    end.

Definition validateRegexPattern (pattern : jsstring) : completion bool :=
  if blank (Some pattern) then mret false
  else try_catch (_ ← new_RegExp pattern; mret true) (mret false).

Definition parseRegexValue (value : option jsstring) : completion ParsedRegexValue :=
  if blank value then
    mret {| format := FEmpty; array := []; raw := []; isValid := true; error := None |}
  else
    let trimmed := trim (default [] value) in
    fmt ← detectRegexFormat (Some trimmed);
    if bool_decide (fmt = FArray) then
      try_catch
        (parsed ← JSON_parse trimmed;
         if Array_isArray parsed && every_string parsed then
           mret {| format := FArray; array := strings_of parsed; raw := trimmed;
                   isValid := true; error := None |}
         else
           mret {| format := FArray; array := []; raw := trimmed; isValid := false;
                   error := Some (js "Array contains non-string values") |})
        (mret {| format := FArray; array := []; raw := trimmed; isValid := false;
                 error := Some (js "Invalid JSON format") |})
    else
      valid ← validateRegexPattern trimmed;
      mret {| format := FString; array := [trimmed]; raw := trimmed;
              isValid := valid; error := None |}.

Definition stringToRegexArray (value : jsstring) : list jsstring :=
  if blank (Some value) then [] else [trim value].

Definition regexArrayToString (patterns : list jsstring) : jsstring :=
  if bool_decide (length patterns = 0%nat) then []
  else if bool_decide (length patterns = 1%nat) then default [] (patterns !! 0%nat)
  else JSON_stringify patterns.

(** The first loop of [validateRegexArray], from index [i] on. *)
Fixpoint check_patterns (i : nat) (patterns errors : list jsstring)
  : completion (list jsstring) :=
  match patterns with
  | [] => mret errors
  | pattern :: rest =>
    if blank (Some pattern) then
      check_patterns (S i) rest (errors ++ [msg_empty i])
    else
      valid ← validateRegexPattern pattern;
      if negb valid then check_patterns (S i) rest (errors ++ [msg_invalid i])
      else check_patterns (S i) rest errors
  end.

(** The second loop, with its [seen] set. *)
Fixpoint check_duplicates (i : nat) (patterns : list jsstring)
    (seen : gset jsstring) (errors : list jsstring) : list jsstring :=
  match patterns with
  | [] => errors
  | p :: rest =>
    let pattern := trim p in
    check_duplicates (S i) rest ({[ pattern ]} ∪ seen)
      (if negb (falsy (Some pattern)) && bool_decide (pattern ∈ seen)
       then errors ++ [msg_duplicate i pattern] else errors)
  end.

Definition validateRegexArray (patterns : list jsstring) : completion ArrayValidation :=
  errors1 ← check_patterns 0 patterns [];
  let errors2 := check_duplicates 0 patterns ∅ errors1 in
  mret {| allValid := bool_decide (length errors2 = 0%nat); errors := errors2 |}.

End WithRegExp.

Definition getDefaultRegexPatterns : list jsstring :=
  [js "1080p.*BluRay.*x264"; js "720p.*WEB-DL"; js "(720p|1080p).*"].

(** [presets] is given by its [Object.entries], in enumeration order. *)
Fixpoint findMatchingPreset (pattern : jsstring) (presets : list (jsstring * jsstring))
  : option jsstring :=
  match presets with
  | [] => None
  | (name, presetPattern) :: rest =>
    if bool_decide (presetPattern = pattern) then Some name
    else findMatchingPreset pattern rest
  end.

Definition getMatchingPresetName (patterns : list jsstring)
    (presets : list (jsstring * jsstring)) : option jsstring :=
  if bool_decide (length patterns = 1%nat) then
    p ← patterns !! 0%nat; findMatchingPreset p presets
  else None.

(** [patterns.map(pattern => findMatchingPreset(pattern, presets) || '')
    .filter(Boolean)] *)
Definition findMatchingPresets (patterns : list jsstring)
    (presets : list (jsstring * jsstring)) : list jsstring :=
  List.filter (fun name => negb (falsy (Some name)))
    (map (fun pattern =>
            let found := findMatchingPreset pattern presets in
            if falsy found then [] else default [] found)
         patterns).

End EnvUtils.

(** ** The priority list editor: src/components/regex-priority-editor.tsx *)

Module Editor.
Import Host.

(** The component's [useState] cells, and the trace of the calls it made to
    the owner's [onPatternsChange], oldest first. *)
Record Component : Type := {
  editingIndex : option nat;
  editingValue : jsstring;
  errors : gmap nat jsstring;
  notified : list (list jsstring)
}.

Definition initial : Component :=
  {| editingIndex := None; editingValue := []; errors := ∅; notified := [] |}.

Section WithRegExp.

Variable RegExp_compiles : jsstring -> bool.

(** Returns the diagnostic, or [null]. *)
Definition validatePattern (pattern : jsstring) : completion (option jsstring) :=
  if EnvUtils.blank (Some pattern) then mret (Some (js "Pattern cannot be empty"))
  else
    try_catch (_ ← EnvUtils.new_RegExp RegExp_compiles pattern; mret None)
              (mret (Some (js "Invalid regex syntax"))).

(** The [forEach] of [checkDuplicates], from position [index] on. *)
Fixpoint checkDuplicates_from (index : nat) (newPatterns : list jsstring)
    (seen : gset jsstring) (duplicateErrors : gmap nat jsstring)
  : gmap nat jsstring :=
  match newPatterns with
  | [] => duplicateErrors
  | pattern :: rest =>
    let trimmed := trim pattern in
    checkDuplicates_from (S index) rest ({[ trimmed ]} ∪ seen)
      (if negb (EnvUtils.falsy (Some trimmed)) && bool_decide (trimmed ∈ seen)
       then <[index := js "Duplicate pattern"]> duplicateErrors
       else duplicateErrors)
  end.

Definition checkDuplicates (newPatterns : list jsstring) : gmap nat jsstring :=
  checkDuplicates_from 0 newPatterns ∅ ∅.

(** The first [forEach] of [updatePatterns], from position [index] on. *)
Fixpoint validate_from (index : nat) (newPatterns : list jsstring)
    (newErrors : gmap nat jsstring) : completion (gmap nat jsstring) :=
  match newPatterns with
  | [] => mret newErrors
  | pattern :: rest =>
    error ← validatePattern pattern;
    validate_from (S index) rest
      (if negb (EnvUtils.falsy error) then <[index := default [] error]> newErrors
       else newErrors)
  end.

(** [Object.assign(newErrors, duplicateErrors)]: the entries of
    [duplicateErrors] replace those of [newErrors] at the same key. *)
Definition Object_assign (target source : gmap nat jsstring) : gmap nat jsstring :=
  source ∪ target.

Definition updatePatterns (newPatterns : list jsstring) (c : Component)
  : completion Component :=
  newErrors ← validate_from 0 newPatterns ∅;
  let duplicateErrors := checkDuplicates newPatterns in
  let newErrors := Object_assign newErrors duplicateErrors in
  mret {| editingIndex := editingIndex c; editingValue := editingValue c;
          errors := newErrors;                          (* setErrors(newErrors) *)
          notified := notified c ++ [newPatterns] |}.   (* onPatternsChange(newPatterns) *)

(** [[a[i], a[j]] = [a[j], a[i]]] on a copy of [patterns].  With both
    positions in range this exchanges the two entries.  With one out of range
    the assignment stores [undefined] in the copy, and [pattern.trim()] in
    [checkDuplicates] then throws a TypeError before [setErrors] and
    [onPatternsChange] are reached: that throw is the handler's completion. *)
Definition swapped (patterns : list jsstring) (i j : nat)
  : completion (list jsstring) :=
  match patterns !! j, patterns !! i with
  | Some at_j, Some at_i => mret (<[j := at_i]> (<[i := at_j]> patterns))
  | _, _ => Throw TypeError
  end.

Definition handleMoveUp (patterns : list jsstring) (index : nat) (c : Component)
  : completion Component :=
  if bool_decide (0 < index)%nat then  (* index > 0 *)
    newPatterns ← swapped patterns index (index - 1);
    updatePatterns newPatterns c
  else mret c.

Definition handleMoveDown (patterns : list jsstring) (index : nat) (c : Component)
  : completion Component :=
  if bool_decide (Z.of_nat index < Z.of_nat (length patterns) - 1)%Z then
    newPatterns ← swapped patterns index (index + 1);
    updatePatterns newPatterns c
  else mret c.

(** [setEditingIndex(index); setEditingValue(patterns[index] || "")] *)
Definition handleEdit (patterns : list jsstring) (index : nat) (c : Component)
  : completion Component :=
  let current := patterns !! index in
  mret {| editingIndex := Some index;
          editingValue := if EnvUtils.falsy current then [] else default [] current;
          errors := errors c; notified := notified c |}.

Definition handleCancelEdit (c : Component) : completion Component :=
  mret {| editingIndex := None; editingValue := [];
          errors := errors c; notified := notified c |}.

(** [a[i] = v] on a copy of the list of strings [a].  In range the entry is
    replaced; at [a.length] the value is appended.  Beyond that the copy has
    holes and is no list of strings any more: [None]. *)
Definition assigned (a : list jsstring) (i : nat) (v : jsstring)
  : option (list jsstring) :=
  if bool_decide (i < length a)%nat then Some (<[i := v]> a)
  else if bool_decide (i = length a) then Some (a ++ [v])
  else None.

(** [None] when the new array would have holes (see [assigned]). *)
Definition handleSaveEdit (patterns : list jsstring) (c : Component)
  : option (completion Component) :=
  match editingIndex c with
  | Some index =>
    match assigned patterns index (editingValue c) with
    | Some newPatterns =>
      Some (c' ← updatePatterns newPatterns c;
            mret {| editingIndex := None; editingValue := [];
                    errors := errors c'; notified := notified c' |})
    | None => None
    end
  | None => Some (mret c)
  end.

(** [a.filter((_, i) => keep(i))], from position [i] on. *)
Fixpoint filter_by_index {A : Type} (keep : nat -> bool) (i : nat) (a : list A)
  : list A :=
  match a with
  | [] => []
  | x :: rest =>
    if keep i then x :: filter_by_index keep (S i) rest
    else filter_by_index keep (S i) rest
  end.

Definition handleRemove (patterns : list jsstring) (index : nat) (c : Component)
  : completion Component :=
  let newPatterns :=
    filter_by_index (fun i => negb (Nat.eqb i index)) 0 patterns in
  updatePatterns newPatterns c.

Definition handleAdd (patterns : list jsstring) (c : Component)
  : completion Component :=
  let newPatterns := patterns ++ [[]] in
  c' ← updatePatterns newPatterns c;
  mret {| editingIndex := Some (length patterns); editingValue := [];
          errors := errors c'; notified := notified c' |}.

(** The value of [presets[presetName]]: the pattern stored under that name,
    [undefined], or a member inherited from [Object.prototype] (a function or
    an object) when the name is no key of [presets]. *)
Inductive property : Type :=
| Undefined
| StringValue (s : jsstring)
| Inherited.

(** Whether the host's [Object.prototype] has a property of that name
    ([toString], [constructor], ...). *)
Variable Object_prototype_has : jsstring -> bool.

Fixpoint own_property (presets : list (jsstring * jsstring)) (name : jsstring)
  : option jsstring :=
  match presets with
  | [] => None
  | (key, value) :: rest =>
    if bool_decide (key = name) then Some value else own_property rest name
  end.

Definition get_property (presets : list (jsstring * jsstring)) (name : jsstring)
  : property :=
  match own_property presets name with
  | Some value => StringValue value
  | None => if Object_prototype_has name then Inherited else Undefined
  end.

(** [handleApplyPreset(presetName, index?)].  An inherited member is truthy
    and has no [trim]: it is stored in the new array, and [validatePattern]
    throws a TypeError on it before [setErrors] and [onPatternsChange] are
    reached.  [None] when the new array would have holes. *)
Definition handleApplyPreset (presets : list (jsstring * jsstring))
    (patterns : list jsstring) (presetName : jsstring) (index : option nat)
    (c : Component) : option (completion Component) :=
  match get_property presets presetName with
  | Undefined => Some (mret c)
  | Inherited => Some (Throw TypeError)
  | StringValue presetValue =>
    if EnvUtils.falsy (Some presetValue) then Some (mret c)
    else
      match index with
      | Some i =>
        match assigned patterns i presetValue with
        | Some newPatterns => Some (updatePatterns newPatterns c)
        | None => None
        end
      | None => Some (updatePatterns [presetValue] c)
      end
  end.

(** [newPatterns.splice(afterIndex + 1, 0, presetValue)] inserts at
    [min(afterIndex + 1, length)]. *)
Definition handleInsertPreset (presets : list (jsstring * jsstring))
    (patterns : list jsstring) (presetName : jsstring) (afterIndex : nat)
    (c : Component) : completion Component :=
  match get_property presets presetName with
  | Undefined => mret c
  | Inherited => Throw TypeError
  | StringValue presetValue =>
    if EnvUtils.falsy (Some presetValue) then mret c
    else
      let newPatterns :=
        take (afterIndex + 1) patterns ++ [presetValue]
        ++ drop (afterIndex + 1) patterns in
      updatePatterns newPatterns c
  end.

End WithRegExp.

(** The owner passes [onPatternsChange={setRegexArray}]: after the handler,
    its [regexArray] is the argument of the last call, if there was one. *)
Definition setRegexArray (regexArray : list jsstring) (calls : list (list jsstring))
  : list jsstring :=
  foldl (fun _ newPatterns => newPatterns) regexArray calls.

End Editor.

(** ** The settings form: the regex part of [EnvConfig] *)

Module EnvConfig.
Import Host EnvUtils.

(** [type RegexPreset] *)
Record RegexPreset : Type := {
  id : jsstring;
  name : jsstring;
  pattern : jsstring;
  isDefault : bool;
  description : option jsstring
}.

Definition TORRENT_FILTER_REGEX : jsstring := js "TORRENT_FILTER_REGEX".

(** The [useState] cells the regex filter lives in. *)
Record State : Type := {
  envVars : gmap jsstring jsstring;
  regexFormat : RegexFormat;
  regexArray : list jsstring
}.

Section WithRegExp.

Variable RegExp_compiles : jsstring -> bool.

(** [fetchEnvVars] after a successful response with body [data]: the state
    the regex filter is left in. *)
Definition fetchEnvVars (data : gmap jsstring jsstring) : completion State :=
  let regexValue := data !! TORRENT_FILTER_REGEX in
  parsedRegex ← parseRegexValue RegExp_compiles regexValue;
  if bool_decide (format parsedRegex = FEmpty) then
    mret {| envVars := data; regexFormat := FArray;
            regexArray := getDefaultRegexPatterns |}
  else
    mret {| envVars := data; regexFormat := format parsedRegex;
            regexArray := array parsedRegex |}.

End WithRegExp.

(** [setEnvVars(prev => ({ ...prev, [key]: value }))].  For the key
    OVERSEERR_BASE the source also restarts a debounce timer, which is no
    part of this state. *)
Definition handleInputChange (key value : jsstring) (st : State) : State :=
  {| envVars := <[key := value]> (envVars st);
     regexFormat := regexFormat st; regexArray := regexArray st |}.

Definition applyRegexPreset (pattern : jsstring) (st : State) : State :=
  if bool_decide (regexFormat st = FArray) then
    {| envVars := envVars st; regexFormat := regexFormat st;
       regexArray := [pattern] |}
  else handleInputChange TORRENT_FILTER_REGEX pattern st.

(** The click handler of 'Convert to Priority List'. *)
Definition convertToPriorityList (st : State) : State :=
  let stored := envVars st !! TORRENT_FILTER_REGEX in
  let currentValue := if falsy stored then [] else default [] stored in
  {| envVars := envVars st; regexFormat := FArray;
     regexArray := stringToRegexArray currentValue |}.

(** The body [handleSubmit] posts. *)
Definition dataToSend (st : State) : gmap jsstring jsstring :=
  if bool_decide (regexFormat st = FArray) then
    <[TORRENT_FILTER_REGEX := regexArrayToString (regexArray st)]> (envVars st)
  else envVars st.

(** [regexPresets.find(preset => preset.pattern === value)] *)
Fixpoint find_pattern (value : jsstring) (regexPresets : list RegexPreset)
  : option RegexPreset :=
  match regexPresets with
  | [] => None
  | preset :: rest =>
    if bool_decide (pattern preset = value) then Some preset
    else find_pattern value rest
  end.

Definition getCurrentPresetName (regexPresets : list RegexPreset) (st : State)
  : option jsstring :=
  if bool_decide (regexFormat st = FArray) then
    if bool_decide (length (regexArray st) = 1%nat) then
      first ← regexArray st !! 0%nat;
      name <$> find_pattern first regexPresets
    else None
  else
    let stored := envVars st !! TORRENT_FILTER_REGEX in
    if falsy stored then None
    else name <$> find_pattern (default [] stored) regexPresets.

End EnvConfig.

(** ** Vocabulary of the statements *)

Section Vocabulary.
Import Host.

(** The text starts with [[] and ends with []]. *)
Definition bracket_looking (t : jsstring) : Prop :=
  startsWith t LBRACKET = true /\ endsWith t RBRACKET = true.

(** The text is a bracketed JSON text that decodes to a list. *)
Definition json_array_text (t : jsstring) : Prop :=
  startsWith t LBRACKET = true /\ endsWith t RBRACKET = true /\
  exists items, JSON_parse t = Normal (JArray items).

(** A malformed storage value: bracket-looking, and either not JSON or a JSON
    array with an element that is not a string. *)
Definition malformed_storage_value (s : jsstring) : Prop :=
  bracket_looking (trim s) /\
  ((exists e, JSON_parse (trim s) = Throw e) \/
   (exists items, JSON_parse (trim s) = Normal (JArray items) /\
                  forallb typeof_string items = false)).

(** [name] is the first name of [presets] whose pattern is [pattern]. *)
Definition first_match (pattern : jsstring) (presets : list (jsstring * jsstring))
    (name : jsstring) : Prop :=
  exists before after,
    presets = before ++ (name, pattern) :: after /\
    Forall (fun entry => entry.2 <> pattern) before.

(** Position [i] of [patterns] has the trimmed text of an earlier position. *)
Definition repeats_earlier (patterns : list jsstring) (i : nat) : Prop :=
  exists j p q, (j < i)%nat /\ patterns !! i = Some p /\ patterns !! j = Some q /\
                trim p = trim q.

(** The messages of [validateRegexArray] that are about position [i]. *)
Definition messages_for (i : nat) (errors : list jsstring) : list jsstring :=
  filter (fun m => EnvUtils.pattern_label i ++ js ": " `prefix_of` m) errors.

(** A regular-expression oracle to run the model on examples: it accepts the
    patterns whose round brackets are balanced.  It agrees with the host's
    constructor on the patterns of the examples below: [a], [b], [x], [y] and
    [[abc]] compile, [(] does not. *)
Fixpoint brackets_close (depth : nat) (p : jsstring) : bool :=
  match p with
  | [] => bool_decide (depth = 0%nat)
  | c :: r =>
    if c =? 0x28 then brackets_close (S depth) r
    else if c =? 0x29 then
      match depth with
      | O => false
      | S d => brackets_close d r
      end
    else brackets_close depth r
  end.

Definition balanced_brackets (p : jsstring) : bool := brackets_close 0 p.

(** The trimmed text at position [i] is not empty and is the trimmed text of
    one of the [earlier] patterns. *)
Definition duplicates (earlier : list jsstring) (p : jsstring) : Prop :=
  trim p <> [] /\ trim p ∈ trim <$> earlier.

(** The message of the first pass of [validateRegexArray] for position [i]. *)
Definition pattern_message (RegExp_compiles : jsstring -> bool) (i : nat)
    (p : jsstring) : list jsstring :=
  if EnvUtils.blank (Some p) then [EnvUtils.msg_empty i]
  else if RegExp_compiles p then []
  else [EnvUtils.msg_invalid i].

(** The message of its second pass. *)
Definition duplicate_message (patterns : list jsstring) (i : nat) (p : jsstring)
  : list jsstring :=
  if bool_decide (duplicates (take i patterns) p)
  then [EnvUtils.msg_duplicate i (trim p)] else [].

(** The diagnostic the editor shows at position [i] of [patterns]. *)
Definition diagnostic (RegExp_compiles : jsstring -> bool)
    (patterns : list jsstring) (i : nat) : option jsstring :=
  match patterns !! i with
  | None => None
  | Some p =>
    if bool_decide (duplicates (take i patterns) p)
    then Some (js "Duplicate pattern")
    else if EnvUtils.blank (Some p) then Some (js "Pattern cannot be empty")
    else if RegExp_compiles p then None
    else Some (js "Invalid regex syntax")
  end.

(** Every pattern is visible and compiles, and no two have the same
    trimmed text. *)
Definition valid_sequence (RegExp_compiles : jsstring -> bool)
    (patterns : list jsstring) : Prop :=
  Forall (fun p => trim p <> [] /\ RegExp_compiles p = true) patterns /\
  NoDup (trim <$> patterns).

(** The property names of [Object.prototype] in ECMA-262 and its Annex B:
    the prototype oracle of the examples. *)
Definition standard_prototype (name : jsstring) : bool :=
  bool_decide (name ∈ js <$> ["constructor"; "hasOwnProperty"; "isPrototypeOf";
                 "propertyIsEnumerable"; "toLocaleString"; "toString";
                 "valueOf"; "__proto__"; "__defineGetter__";
                 "__defineSetter__"; "__lookupGetter__";
                 "__lookupSetter__"]%string).

End Vocabulary.

(** * Properties of the host functions *)

Section TrimFacts.
Import Host.

Lemma trimStart_head (c : N) (r : jsstring) :
  isWhiteSpace c = false -> trimStart (c :: r) = c :: r.
Proof. intros Hc. simpl. by rewrite Hc. Qed.

(** The result of [trimStart] is empty or starts with a visible unit. *)
Lemma trimStart_result (s : jsstring) :
  trimStart s = [] \/
  exists c r, trimStart s = c :: r /\ isWhiteSpace c = false.
Proof.
  induction s as [|c r IH]; simpl; [by left|].
  destruct (isWhiteSpace c) eqn:Hc; [exact IH|].
  right. by exists c, r.
Qed.

Lemma trimStart_idem (s : jsstring) : trimStart (trimStart s) = trimStart s.
Proof.
  destruct (trimStart_result s) as [->|(c & r & -> & Hc)]; [done|].
  by apply trimStart_head.
Qed.

(** A visible unit further right stops [trimStart] at the latest there. *)
Lemma trimStart_app_visible (l : jsstring) (c : N) (r : jsstring) :
  isWhiteSpace c = false ->
  trimStart (l ++ c :: r) = trimStart l ++ c :: r.
Proof.
  intros Hc. induction l as [|d l IH]; simpl.
  - by rewrite Hc.
  - destruct (isWhiteSpace d); [exact IH|done].
Qed.

Lemma trimEnd_idem (s : jsstring) : trimEnd (trimEnd s) = trimEnd s.
Proof. unfold trimEnd. rewrite rev_involutive, trimStart_idem. done. Qed.

(** [trimEnd] never removes a visible first unit. *)
Lemma trimEnd_head (c : N) (r : jsstring) :
  isWhiteSpace c = false -> trimEnd (c :: r) = c :: trimEnd r.
Proof.
  intros Hc. unfold trimEnd. simpl rev.
  rewrite trimStart_app_visible by done.
  rewrite rev_app_distr. done.
Qed.

(** [trimEnd] keeps a string that is already trimmed at its start so. *)
Lemma trimStart_trimEnd (s : jsstring) :
  trimStart s = s -> trimStart (trimEnd s) = trimEnd s.
Proof.
  intros Hs. destruct (trimStart_result s) as [E|(c & r & E & Hc)];
    rewrite Hs in E; subst s.
  - done.
  - rewrite trimEnd_head by done. by apply trimStart_head.
Qed.

Lemma trim_idem (s : jsstring) : trim (trim s) = trim s.
Proof.
  unfold trim.
  rewrite (trimStart_trimEnd (trimStart s)) by apply trimStart_idem.
  apply trimEnd_idem.
Qed.

(** A string with a visible first and a visible last unit is its own trim. *)
Lemma trim_visible_ends (c d : N) (m : jsstring) :
  isWhiteSpace c = false -> isWhiteSpace d = false ->
  trim (c :: m ++ [d]) = c :: m ++ [d].
Proof.
  intros Hc Hd. unfold trim. rewrite trimStart_head by done.
  unfold trimEnd. change (c :: m ++ [d]) with ((c :: m) ++ [d]).
  rewrite rev_app_distr.
  change (rev [d] ++ rev (c :: m)) with (d :: rev (c :: m)).
  rewrite trimStart_head by done.
  change (d :: rev (c :: m)) with ([d] ++ rev (c :: m)).
  rewrite rev_app_distr, rev_involutive. done.
Qed.

Lemma trim_nil : trim [] = [].
Proof. reflexivity. Qed.

End TrimFacts.

(** Case analysis on the comparisons of code units in the goal. *)
Ltac unit_cases :=
  repeat match goal with
  | |- context [N.eqb ?a ?b] => destruct (N.eqb_spec a b)
  | |- context [N.leb ?a ?b] => destruct (N.leb_spec a b)
  | |- context [N.ltb ?a ?b] => destruct (N.ltb_spec a b)
  end; simpl; try done; try lia.

Section JsonFacts.
Import Host.

Lemma hex_val_digit (d : N) : d < 16 -> hex_val (hex_digit d) = Some d.
Proof.
  intros Hd. unfold hex_val, hex_digit. unit_cases; f_equal; lia.
Qed.

(** Decoding the four digits written by [UnicodeEscape] gives the unit back. *)
Lemma hex4_UnicodeEscape (c : N) :
  c < 65536 ->
  hex4 (hex_digit (c / 4096 mod 16)) (hex_digit (c / 256 mod 16))
       (hex_digit (c / 16 mod 16)) (hex_digit (c mod 16)) = Some c.
Proof.
  intros Hc. unfold hex4.
  rewrite !hex_val_digit by (apply N.mod_lt; lia). simpl. f_equal.
  pose proof (N.div_mod c 16 ltac:(lia)) as E0.
  pose proof (N.div_mod (c / 16) 16 ltac:(lia)) as E1.
  pose proof (N.div_mod (c / 256) 16 ltac:(lia)) as E2.
  pose proof (N.div_mod (c / 4096) 16 ltac:(lia)) as E3.
  assert (c / 256 = c / 16 / 16) as D1 by (by rewrite N.Div0.div_div).
  assert (c / 4096 = c / 256 / 16) as D2 by (by rewrite N.Div0.div_div).
  assert (c / 4096 < 16) as B by (apply N.Div0.div_lt_upper_bound; lia).
  rewrite (N.mod_small (c / 4096) 16) in * by done.
  lia.
Qed.

Lemma parse_UnicodeEscape (c : N) (rest : jsstring) :
  c < 65536 ->
  parse_string_body (UnicodeEscape c ++ rest)
  = cons_fst c (parse_string_body rest).
Proof.
  intros Hc. unfold UnicodeEscape.
  cbn [app parse_string_body]. change (0x5C =? 0x22) with false.
  change (0x5C =? 0x5C) with true. change (0x75 =? 0x75) with true.
  cbv iota. by rewrite hex4_UnicodeEscape.
Qed.

(** A unit that is written verbatim is read verbatim. *)
Lemma parse_verbatim (c : N) (rest : jsstring) :
  c <> QUOTE -> c <> BACKSLASH -> 0x20 <= c ->
  parse_string_body (c :: rest) = cons_fst c (parse_string_body rest).
Proof.
  intros H1 H2 H3. cbn [parse_string_body]. unit_cases.
Qed.

Lemma parse_quote_unit (c : N) (rest : jsstring) :
  parse_string_body (quote_unit c ++ rest)
  = cons_fst c (parse_string_body rest).
Proof.
  unfold quote_unit.
  destruct (N.eqb_spec c 0x08) as [->|]; [done|].
  destruct (N.eqb_spec c 0x09) as [->|]; [done|].
  destruct (N.eqb_spec c 0x0A) as [->|]; [done|].
  destruct (N.eqb_spec c 0x0C) as [->|]; [done|].
  destruct (N.eqb_spec c 0x0D) as [->|]; [done|].
  destruct (N.eqb_spec c QUOTE) as [->|]; [done|].
  destruct (N.eqb_spec c BACKSLASH) as [->|]; [done|].
  destruct (N.ltb_spec c 0x20).
  - apply parse_UnicodeEscape. lia.
  - by apply parse_verbatim.
Qed.

Lemma surrogate_bounds (c : N) :
  is_leading_surrogate c || is_trailing_surrogate c = true ->
  0xD800 <= c /\ c <= 0xDFFF.
Proof.
  unfold is_leading_surrogate, is_trailing_surrogate.
  destruct (N.leb_spec 0xD800 c), (N.leb_spec c 0xDBFF),
    (N.leb_spec 0xDC00 c), (N.leb_spec c 0xDFFF); simpl; try done; lia.
Qed.

(** [JSON.parse] reads back what QuoteJSONString wrote, whatever follows the
    closing quote. *)
Lemma parse_quote_units (s rest : jsstring) :
  parse_string_body (quote_units s ++ QUOTE :: rest) = Some (s, rest).
Proof.
  remember (length s) as n eqn:Hn.
  revert s Hn. induction (lt_wf n) as [n _ IH]. intros s ->.
  destruct s as [|c r]; [done|].
  cbn [quote_units].
  destruct (is_leading_surrogate c) eqn:Hl.
  - pose proof (surrogate_bounds c) as Bc. rewrite Hl in Bc.
    specialize (Bc eq_refl).
    destruct r as [|d r'].
    + rewrite parse_UnicodeEscape by lia. done.
    + destruct (is_trailing_surrogate d) eqn:Ht.
      * pose proof (surrogate_bounds d) as Bd. rewrite Ht, orb_true_r in Bd.
        specialize (Bd eq_refl).
        cbn [app]. rewrite !parse_verbatim by lia.
        rewrite (IH (length r')) by (simpl; lia || done). done.
      * rewrite <- app_assoc, parse_UnicodeEscape by lia.
        rewrite (IH (length (d :: r'))) by (simpl; lia || done). done.
  - destruct (is_trailing_surrogate c) eqn:Ht.
    + pose proof (surrogate_bounds c) as Bc. rewrite Ht, orb_true_r in Bc.
      specialize (Bc eq_refl).
      rewrite <- app_assoc, parse_UnicodeEscape by lia.
      rewrite (IH (length r)) by (simpl; lia || done). done.
    + rewrite <- app_assoc, parse_quote_unit.
      rewrite (IH (length r)) by (simpl; lia || done). done.
Qed.

(** One step of the descent. *)
Lemma parse_elements_S (f : nat) (s : jsstring) :
  parse_elements (S f) s =
  '(v, r) ← parse_value f s;
  match skip_ws r with
  | [] => None
  | d :: r' =>
    if d =? COMMA then
      '(vs, r'') ← parse_elements f (skip_ws r'); Some (v :: vs, r'')
    else if d =? RBRACKET then Some ([v], r')
    else None
  end.
Proof. reflexivity. Qed.

Lemma parse_value_S_array (f : nat) (r : jsstring) :
  parse_value (S f) (LBRACKET :: r) =
  match skip_ws r with
  | [] => None
  | d :: r' =>
    if d =? RBRACKET then Some (JArray [], r')
    else '(vs, r'') ← parse_elements f (d :: r'); Some (JArray vs, r'')
  end.
Proof. reflexivity. Qed.

Lemma skip_ws_visible (c : N) (r : jsstring) :
  isJSONWhiteSpace c = false -> skip_ws (c :: r) = c :: r.
Proof. intros Hc. simpl. by rewrite Hc. Qed.

Lemma parse_value_QuoteJSONString (f : nat) (x rest : jsstring) :
  parse_value (S f) (QuoteJSONString x ++ rest) = Some (JString x, rest).
Proof.
  unfold QuoteJSONString. rewrite <- !app_assoc.
  change ([0x22] ++ quote_units x ++ [0x22] ++ rest)
    with (0x22 :: (quote_units x ++ 0x22 :: rest)).
  cbn [parse_value]. change (0x22 =? 0x5B) with false.
  change (0x22 =? 0x7B) with false. change (0x22 =? 0x22) with true.
  cbv iota. by rewrite parse_quote_units.
Qed.

(** What [JSON.stringify] writes between the brackets starts with a quote. *)
Lemma join_comma_head (x : jsstring) (xs : list jsstring) :
  exists tl, join_comma (map QuoteJSONString (x :: xs)) = QUOTE :: tl.
Proof. destruct xs; by eexists. Qed.

(** The elements written by [JSON.stringify], followed by the closing
    bracket, are read back as the strings they encode. *)
Lemma parse_elements_join (xs : list jsstring) :
  forall (f : nat) (x rest : jsstring),
  (length xs < f)%nat ->
  parse_elements (S f)
    (join_comma (map QuoteJSONString (x :: xs)) ++ RBRACKET :: rest)
  = Some (map JString (x :: xs), rest).
Proof.
  induction xs as [|y ys IH]; intros f x rest Hf;
    rewrite parse_elements_S;
    (destruct f as [|f]; [simpl in Hf; lia|]).
  - cbn [map join_comma]. rewrite parse_value_QuoteJSONString. done.
  - change (join_comma (map QuoteJSONString (x :: y :: ys)))
      with (QuoteJSONString x
            ++ COMMA :: join_comma (map QuoteJSONString (y :: ys))).
    rewrite <- app_assoc, parse_value_QuoteJSONString.
    cbn [mbind option_bind]. rewrite <- app_comm_cons.
    rewrite skip_ws_visible by done.
    change (0x2C =? 0x2C) with true. cbv iota.
    destruct (join_comma_head y ys) as [tl Htl].
    rewrite Htl at 1. rewrite <- app_comm_cons, skip_ws_visible by done.
    rewrite app_comm_cons, <- Htl.
    rewrite IH by (simpl in *; lia). done.
Qed.

Lemma length_join_comma (xs : list jsstring) :
  (length xs <= length (join_comma (map QuoteJSONString xs)))%nat.
Proof.
  induction xs as [|x [|y ys] IH]; [done| |].
  - simpl. unfold QuoteJSONString. rewrite !length_app. simpl. lia.
  - change (join_comma (map QuoteJSONString (x :: y :: ys)))
      with (QuoteJSONString x
            ++ COMMA :: join_comma (map QuoteJSONString (y :: ys))).
    rewrite length_app. cbn [length] in *. lia.
Qed.

(** [JSON.parse(JSON.stringify(a))] is the array of the strings of [a]. *)
Lemma JSON_parse_stringify (a : list jsstring) :
  JSON_parse (JSON_stringify a) = Normal (JArray (map JString a)).
Proof.
  unfold JSON_parse, JSON_stringify, parse_fuel.
  destruct a as [|x xs]; [done|].
  change ([0x5B] ++ join_comma (map QuoteJSONString (x :: xs)) ++ [0x5D])
    with (0x5B :: (join_comma (map QuoteJSONString (x :: xs)) ++ [0x5D])).
  pose proof (length_join_comma (x :: xs)) as Hlen.
  rewrite skip_ws_visible, parse_value_S_array by done.
  destruct (join_comma_head x xs) as [tl Htl].
  rewrite Htl at 1. rewrite <- app_comm_cons, skip_ws_visible by done.
  change (0x22 =? 0x5D) with false. cbv iota.
  change (0x22 :: tl ++ [0x5D]) with ((0x22 :: tl) ++ [0x5D]).
  rewrite <- Htl.
  cbn [length]. rewrite length_app. cbn [length].
  replace (2 * S (length (join_comma (map QuoteJSONString (x :: xs))) + 1))%nat
    with (S (S (2 * length (join_comma (map QuoteJSONString (x :: xs))) + 2)))%nat
    by lia.
  rewrite parse_elements_join by (simpl in *; lia). done.
Qed.

(** *** The decoder on sample texts *)

Example JSON_parse_numbers :
  JSON_parse (js "[1,2]") = Normal (JArray [JNumber (js "1"); JNumber (js "2")]).
Proof. reflexivity. Qed.

Example JSON_parse_mixed :
  JSON_parse (js " [ -1.5e+3 , true, null, {}, [[]] ]  ")
  = Normal (JArray [JNumber (js "-1.5e+3"); JBool true; JNull; JObject [];
                    JArray [JArray []]]).
Proof. reflexivity. Qed.

Example JSON_parse_escapes :
  JSON_parse (QUOTE :: js "a\n\u00e9\/" ++ [QUOTE])
  = Normal (JString [0x61; 0x0A; 0xE9; 0x2F]).
Proof. reflexivity. Qed.

Example JSON_parse_rejects :
  Forall (fun text => JSON_parse (js text) = Throw SyntaxError)
    [""; "[abc]"; "[1,]"; "[,]"; "[01]"; "[1.]"; "[1e]"; "[+1]"; "[.5]";
     "[1 2]"; "[1]]"; "[[1]"; "[truex]"; "[nul]"; "{1:2}"; "[1],"]%string.
Proof. repeat constructor. Qed.

Example JSON_stringify_sample :
  JSON_stringify [js "a"; [0x09; 0x01; 0xD800; 0xD83D; 0xDE00]; []]
  = LBRACKET :: QUOTE :: js "a" ++ QUOTE :: COMMA :: QUOTE
    :: js "\t\u0001\ud800" ++ 0xD83D :: 0xDE00 :: QUOTE :: COMMA
    :: QUOTE :: QUOTE :: [RBRACKET].
Proof. reflexivity. Qed.

Example trim_sample :
  trim (0xFEFF :: js "  [a b]  " ++ [0x2028; 0x0A]) = js "[a b]".
Proof. reflexivity. Qed.

(** *** The fuel of the descent is never the limit *)

Lemma skip_ws_length (s : jsstring) : (length (skip_ws s) <= length s)%nat.
Proof.
  induction s as [|c r IH]; [done|]. simpl.
  destruct (isJSONWhiteSpace c); simpl; lia.
Qed.

Lemma cons_fst_length (u : N) (o : option (jsstring * jsstring))
    (x r : jsstring) (n : nat) :
  cons_fst u o = Some (x, r) ->
  (forall y, o = Some (y, r) -> (length r < n)%nat) ->
  (length r < n)%nat.
Proof.
  destruct o as [[y r']|]; [|done]. intros [= <- <-] H. by apply (H y).
Qed.

Lemma parse_string_body_length (s x r : jsstring) :
  parse_string_body s = Some (x, r) -> (length r < length s)%nat.
Proof.
  remember (length s) as n eqn:Hn.
  revert s x r Hn. induction (lt_wf n) as [n _ IH]. intros s x r -> H.
  destruct s as [|c s1]; [done|]. cbn [parse_string_body] in H.
  destruct (c =? 0x22); [simplify_eq/=; lia|].
  destruct (c =? 0x5C).
  - destruct s1 as [|e s2]; [done|].
    destruct (e =? 0x75).
    + destruct s2 as [|h1 [|h2 [|h3 [|h4 s3]]]]; try done.
      destruct (hex4 h1 h2 h3 h4); [|done].
      eapply cons_fst_length; [exact H|]. intros y Hy.
      assert (length r < length s3)%nat
        by (eapply (IH (length s3)); [simpl; lia|done|exact Hy]).
      simpl. lia.
    + destruct (simple_escape e); [|done].
      eapply cons_fst_length; [exact H|]. intros y Hy.
      assert (length r < length s2)%nat
        by (eapply (IH (length s2)); [simpl; lia|done|exact Hy]).
      simpl. lia.
  - destruct (c <? 0x20); [done|].
    eapply cons_fst_length; [exact H|]. intros y Hy.
    assert (length r < length s1)%nat
      by (eapply (IH (length s1)); [simpl; lia|done|exact Hy]).
    simpl. lia.
Qed.

Lemma strip_prefix_length (p s r : jsstring) :
  strip_prefix p s = Some r -> (length r <= length s)%nat.
Proof.
  revert s. induction p as [|a p IH]; intros s H; simpl in H.
  - by simplify_eq.
  - destruct s as [|b s]; [done|]. destruct (a =? b); [|done].
    apply IH in H. simpl. lia.
Qed.

Lemma skip_digits_length (s : jsstring) :
  (length (skip_digits s) <= length s)%nat.
Proof.
  induction s as [|c r IH]; [done|]. simpl.
  destruct (is_digit c); simpl; lia.
Qed.

Lemma lex_digits1_length (s r : jsstring) :
  lex_digits1 s = Some r -> (length r < length s)%nat.
Proof.
  destruct s as [|d s]; [done|]. simpl.
  destruct (is_digit d); [|done]. intros [= <-].
  pose proof (skip_digits_length s). lia.
Qed.

Lemma lex_number_length (s r : jsstring) :
  lex_number s = Some r -> (length r < length s)%nat.
Proof.
  unfold lex_number. intros H.
  destruct (lex_int _) as [s2|] eqn:E2; [|done].
  cbn [mbind option_bind] in H.
  destruct (lex_frac s2) as [s3|] eqn:E3; [|done].
  cbn [mbind option_bind] in H.
  assert (length s2 < length s)%nat as H2.
  { assert (forall t, lex_int t = Some s2 -> (length s2 < length t)%nat) as Hi.
    { intros [|d t]; [done|]. simpl.
      destruct (d =? 0x30); [intros [= <-]; lia|].
      destruct (is_digit d); [|done]. intros [= <-].
      pose proof (skip_digits_length t). lia. }
    destruct s as [|d t]; [done|].
    destruct (d =? 0x2D); apply Hi in E2; simpl in *; lia. }
  assert (length s3 <= length s2)%nat as H3.
  { destruct s2 as [|d t]; [by simplify_eq/=|]. simpl in E3.
    destruct (d =? 0x2E); [|by simplify_eq/=].
    apply lex_digits1_length in E3. simpl. lia. }
  assert (length r <= length s3)%nat as H4.
  { destruct s3 as [|d t]; [by simplify_eq/=|]. simpl in H.
    destruct ((d =? 0x65) || (d =? 0x45)); [|by simplify_eq/=].
    destruct t as [|sign t']; [done|].
    destruct ((sign =? 0x2B) || (sign =? 0x2D));
      apply lex_digits1_length in H; simpl in *; lia. }
  lia.
Qed.

(** A successful descent consumes at least one unit, and succeeds with the
    same result on any fuel of at least twice the number of units it
    consumed. *)
Lemma parse_fuel_bounds (f : nat) :
  (forall s v r, parse_value f s = Some (v, r) ->
     (length r < length s)%nat /\
     forall g, (2 * (length s - length r) <= g)%nat ->
               parse_value g s = Some (v, r)) /\
  (forall s vs r, parse_elements f s = Some (vs, r) ->
     (length r < length s)%nat /\
     forall g, (2 * (length s - length r) <= g)%nat ->
               parse_elements g s = Some (vs, r)) /\
  (forall s ms r, parse_members f s = Some (ms, r) ->
     (length r < length s)%nat /\
     forall g, (2 * (length s - length r) <= g)%nat ->
               parse_members g s = Some (ms, r)).
Proof.
  induction f as [|f (IHv & IHe & IHm)]; [done|]. split; [|split].
  - intros s v r H. cbn [parse_value] in H. destruct s as [|c r0]; [done|].
    destruct (c =? 0x5B) eqn:E1.
    { pose proof (skip_ws_length r0) as Hws.
      destruct (skip_ws r0) as [|d r'] eqn:Ews; [done|].
      destruct (d =? 0x5D) eqn:E2.
      - simplify_eq. split; [simpl in *; lia|].
        intros [|g] Hg; [simpl in *; lia|].
        cbn [parse_value]. by rewrite E1, Ews, E2.
      - destruct (parse_elements f (d :: r')) as [[vs r'']|] eqn:Ee; [|done].
        simplify_eq/=. destruct (IHe _ _ _ Ee) as [Hl Hg'].
        split; [simpl in *; lia|].
        intros [|g] Hg; [simpl in *; lia|].
        cbn [parse_value]. rewrite E1, Ews, E2, Hg' by (simpl in *; lia).
        done. }
    destruct (c =? 0x7B) eqn:E2.
    { pose proof (skip_ws_length r0) as Hws.
      destruct (skip_ws r0) as [|d r'] eqn:Ews; [done|].
      destruct (d =? 0x7D) eqn:E3.
      - simplify_eq. split; [simpl in *; lia|].
        intros [|g] Hg; [simpl in *; lia|].
        cbn [parse_value]. by rewrite E1, E2, Ews, E3.
      - destruct (parse_members f (d :: r')) as [[ms r'']|] eqn:Em; [|done].
        simplify_eq/=. destruct (IHm _ _ _ Em) as [Hl Hg'].
        split; [simpl in *; lia|].
        intros [|g] Hg; [simpl in *; lia|].
        cbn [parse_value]. rewrite E1, E2, Ews, E3, Hg' by (simpl in *; lia).
        done. }
    assert (length r < length (c :: r0))%nat as Hlen.
    { destruct (c =? 0x22).
      { destruct (parse_string_body r0) as [[x r1]|] eqn:Es; [|done].
        apply parse_string_body_length in Es. simplify_eq/=. lia. }
      destruct (c =? 0x74).
      { destruct (strip_prefix (js "rue") r0) as [r1|] eqn:Es; [|done].
        apply strip_prefix_length in Es. simplify_eq/=. lia. }
      destruct (c =? 0x66).
      { destruct (strip_prefix (js "alse") r0) as [r1|] eqn:Es; [|done].
        apply strip_prefix_length in Es. simplify_eq/=. lia. }
      destruct (c =? 0x6E).
      { destruct (strip_prefix (js "ull") r0) as [r1|] eqn:Es; [|done].
        apply strip_prefix_length in Es. simplify_eq/=. lia. }
      destruct (lex_number (c :: r0)) as [r1|] eqn:Es; [|done].
      apply lex_number_length in Es. simplify_eq/=. lia. }
    split; [exact Hlen|].
    intros [|g] Hg; [lia|]. cbn [parse_value]. by rewrite E1, E2.
  - intros s vs r H. cbn [parse_elements] in H.
    destruct (parse_value f s) as [[v r1]|] eqn:Ev; [|done].
    cbn [mbind option_bind] in H.
    destruct (IHv _ _ _ Ev) as [Hl1 Hg1].
    pose proof (skip_ws_length r1) as Hws.
    destruct (skip_ws r1) as [|d r2] eqn:Ews; [done|].
    destruct (d =? 0x2C) eqn:E1.
    + destruct (parse_elements f (skip_ws r2)) as [[vs' r3]|] eqn:Ee; [|done].
      simplify_eq/=. destruct (IHe _ _ _ Ee) as [Hl2 Hg2].
      pose proof (skip_ws_length r2) as Hws2.
      split; [simpl in *; lia|].
      intros [|g] Hg; [simpl in *; lia|].
      cbn [parse_elements]. rewrite Hg1 by (simpl in *; lia).
      cbn [mbind option_bind]. rewrite Ews, E1, Hg2 by (simpl in *; lia).
      done.
    + destruct (d =? 0x5D) eqn:E2; [|done]. simplify_eq/=.
      split; [simpl in *; lia|].
      intros [|g] Hg; [simpl in *; lia|].
      cbn [parse_elements]. rewrite Hg1 by (simpl in *; lia).
      cbn [mbind option_bind]. by rewrite Ews, E1, E2.
  - intros s ms r H. cbn [parse_members] in H.
    destruct s as [|q r0]; [done|].
    destruct (q =? 0x22) eqn:E0; [|done].
    destruct (parse_string_body r0) as [[k r1]|] eqn:Es; [|done].
    cbn [mbind option_bind] in H.
    pose proof (parse_string_body_length _ _ _ Es) as Hl0.
    pose proof (skip_ws_length r1) as Hws1.
    destruct (skip_ws r1) as [|col r2] eqn:Ews1; [done|].
    destruct (col =? 0x3A) eqn:E1; [|done].
    pose proof (skip_ws_length r2) as Hws2.
    destruct (parse_value f (skip_ws r2)) as [[v r3]|] eqn:Ev; [|done].
    cbn [mbind option_bind] in H.
    destruct (IHv _ _ _ Ev) as [Hl1 Hg1].
    pose proof (skip_ws_length r3) as Hws3.
    destruct (skip_ws r3) as [|d r4] eqn:Ews3; [done|].
    destruct (d =? 0x2C) eqn:E2.
    + destruct (parse_members f (skip_ws r4)) as [[ms' r5]|] eqn:Em; [|done].
      simplify_eq/=. destruct (IHm _ _ _ Em) as [Hl2 Hg2].
      pose proof (skip_ws_length r4) as Hws4.
      split; [simpl in *; lia|].
      intros [|g] Hg; [simpl in *; lia|].
      cbn [parse_members]. rewrite E0, Es. cbn [mbind option_bind].
      rewrite Ews1, E1, Hg1 by (simpl in *; lia). cbn [mbind option_bind].
      rewrite Ews3, E2, Hg2 by (simpl in *; lia). done.
    + destruct (d =? 0x7D) eqn:E3; [|done]. simplify_eq/=.
      split; [simpl in *; lia|].
      intros [|g] Hg; [simpl in *; lia|].
      cbn [parse_members]. rewrite E0, Es. cbn [mbind option_bind].
      rewrite Ews1, E1, Hg1 by (simpl in *; lia). cbn [mbind option_bind].
      by rewrite Ews3, E2, E3.
Qed.

(** [JSON_parse] throws only on a text that the descent rejects on every
    fuel: whatever is parsed with some fuel is parsed with [parse_fuel]. *)
Lemma parse_value_fuel (text : jsstring) (f : nat) (v : json) (r : jsstring) :
  parse_value f (skip_ws text) = Some (v, r) ->
  parse_value (parse_fuel text) (skip_ws text) = Some (v, r).
Proof.
  intros H. destruct (parse_fuel_bounds f) as (Hv & _).
  destruct (Hv _ _ _ H) as [Hl Hg]. apply Hg.
  pose proof (skip_ws_length text). unfold parse_fuel. lia.
Qed.

End JsonFacts.

(** * Properties of the format model *)

Section FormatModelFacts.
Import Host EnvUtils.

Variable RegExp_compiles : jsstring -> bool.

Lemma blank_Some (s : jsstring) : blank (Some s) = bool_decide (trim s = []).
Proof.
  unfold blank, falsy. destruct s as [|c r]; [done|].
  by rewrite bool_decide_eq_false_2.
Qed.

Lemma blank_true_iff (value : option jsstring) :
  blank value = true <-> value = None \/ exists s, value = Some s /\ trim s = [].
Proof.
  destruct value as [s|].
  - rewrite blank_Some, bool_decide_eq_true. split.
    + intros H. right. by exists s.
    + intros [?|(s' & [= <-] & H)]; done.
  - split; [by left|done].
Qed.

Lemma blank_trim (s : jsstring) : blank (Some (trim s)) = blank (Some s).
Proof. by rewrite !blank_Some, trim_idem. Qed.

Lemma json_array_text_not_blank (s : jsstring) :
  json_array_text (trim s) -> blank (Some s) = false.
Proof.
  intros (Hs & _). rewrite blank_Some. apply bool_decide_eq_false_2.
  intros E. by rewrite E in Hs.
Qed.

(** The three outcomes of [detectRegexFormat]. *)
Lemma detect_blank (value : option jsstring) :
  blank value = true -> detectRegexFormat value = Normal FEmpty.
Proof. intros H. unfold detectRegexFormat. by rewrite H. Qed.

Lemma detect_array (s : jsstring) :
  json_array_text (trim s) -> detectRegexFormat (Some s) = Normal FArray.
Proof.
  intros H. pose proof (json_array_text_not_blank s H) as Hb.
  destruct H as (H1 & H2 & items & H3).
  unfold detectRegexFormat. rewrite Hb. simpl default.
  by rewrite H1, H2, H3.
Qed.

Lemma detect_string (s : jsstring) :
  blank (Some s) = false -> ~ json_array_text (trim s) ->
  detectRegexFormat (Some s) = Normal FString.
Proof.
  intros Hb Hn. unfold detectRegexFormat. rewrite Hb. simpl default.
  destruct (startsWith (trim s) 0x5B) eqn:H1; [|done].
  destruct (endsWith (trim s) 0x5D) eqn:H2; [|done].
  destruct (JSON_parse (trim s)) as [parsed|e] eqn:H3; [|done].
  destruct parsed; try done.
  exfalso. apply Hn. repeat split; try done. by eexists.
Qed.

Lemma detect_array_inv (value : option jsstring) :
  detectRegexFormat value = Normal FArray ->
  exists s, value = Some s /\ json_array_text (trim s).
Proof.
  intros H. destruct value as [s|]; [|done].
  exists s. split; [done|].
  destruct (blank (Some s)) eqn:Hb; [by rewrite detect_blank in H|].
  destruct (startsWith (trim s) 0x5B) eqn:H1,
           (endsWith (trim s) 0x5D) eqn:H2,
           (JSON_parse (trim s)) as [[]|] eqn:H3;
    try (unfold detectRegexFormat in H; rewrite Hb in H; simpl default in H;
         rewrite ?H1, ?H2, ?H3 in H; by simplify_eq/=).
  repeat split; try done. by eexists.
Qed.

Lemma validateRegexPattern_normal (pattern : jsstring) :
  validateRegexPattern RegExp_compiles pattern
  = Normal (negb (blank (Some pattern)) && RegExp_compiles pattern).
Proof.
  unfold validateRegexPattern, new_RegExp.
  destruct (blank (Some pattern)); [done|].
  by destruct (RegExp_compiles pattern).
Qed.

(** The three shapes of the result of [parseRegexValue]. *)
Lemma parse_blank (value : option jsstring) :
  blank value = true ->
  parseRegexValue RegExp_compiles value
  = Normal {| format := FEmpty; array := []; raw := []; isValid := true;
              error := None |}.
Proof. intros H. unfold parseRegexValue. by rewrite H. Qed.

Lemma parse_array (s : jsstring) (items : list json) :
  startsWith (trim s) LBRACKET = true -> endsWith (trim s) RBRACKET = true ->
  JSON_parse (trim s) = Normal (JArray items) ->
  parseRegexValue RegExp_compiles (Some s)
  = Normal (if forallb typeof_string items
            then {| format := FArray; array := strings_of (JArray items);
                    raw := trim s; isValid := true; error := None |}
            else {| format := FArray; array := []; raw := trim s;
                    isValid := false;
                    error := Some (js "Array contains non-string values") |}).
Proof.
  intros H1 H2 H3.
  assert (json_array_text (trim s)) as H by (repeat split; [done..|by eexists]).
  unfold parseRegexValue. rewrite (json_array_text_not_blank s H).
  simpl default. rewrite detect_array by (by rewrite trim_idem).
  cbn [mbind completion_bind]. rewrite bool_decide_eq_true_2 by done.
  rewrite H3. cbn [mbind completion_bind Array_isArray every_string andb].
  by destruct (forallb typeof_string items).
Qed.

Lemma parse_string (s : jsstring) :
  blank (Some s) = false -> ~ json_array_text (trim s) ->
  parseRegexValue RegExp_compiles (Some s)
  = Normal {| format := FString; array := [trim s]; raw := trim s;
              isValid := RegExp_compiles (trim s); error := None |}.
Proof.
  intros Hb Hn. unfold parseRegexValue. rewrite Hb. simpl default.
  rewrite detect_string by (by rewrite ?blank_trim, ?trim_idem).
  cbn [mbind completion_bind]. rewrite bool_decide_eq_false_2 by done.
  rewrite validateRegexPattern_normal, blank_trim, Hb. done.
Qed.

Lemma json_array_text_dec (t : jsstring) :
  json_array_text t \/ ~ json_array_text t.
Proof.
  unfold json_array_text.
  destruct (startsWith t 0x5B); [|right; by intros (? & _)].
  destruct (endsWith t 0x5D); [|right; by intros (_ & ? & _)].
  destruct (JSON_parse t) as [[]|];
    try (right; by intros (_ & _ & ? & ?)).
  left. repeat split. by eexists.
Qed.

Lemma blank_false_iff (value : option jsstring) :
  blank value = false <-> exists s, value = Some s /\ trim s <> [].
Proof.
  destruct value as [s|].
  - rewrite blank_Some, bool_decide_eq_false. split.
    + intros H. by exists s.
    + by intros (s' & [= <-] & H).
  - split; [done|by intros (? & ? & _)].
Qed.

(** [parseRegexValue] returns normally on every input. *)
Lemma parse_total (value : option jsstring) :
  exists r, parseRegexValue RegExp_compiles value = Normal r
            /\ error r <> Some (js "Invalid JSON format").
Proof.
  destruct (blank value) eqn:Hb.
  - eexists. split; [by apply parse_blank|done].
  - apply blank_false_iff in Hb as (s & -> & Hs).
    assert (blank (Some s) = false) as Hb
      by (apply blank_false_iff; by exists s).
    destruct (json_array_text_dec (trim s)) as [(H1 & H2 & items & H3)|Hn].
    + eexists. split; [by apply parse_array|].
      by destruct (forallb typeof_string items).
    + eexists. split; [by apply parse_string|done].
Qed.

Lemma strings_of_all_strings (items : list json) :
  forallb typeof_string items = true ->
  items = map JString (strings_of (JArray items)).
Proof.
  induction items as [|v items IH]; [done|].
  destruct v; try done. simpl. intros H. f_equal. by apply IH.
Qed.

Lemma strings_of_map_JString (a : list jsstring) :
  strings_of (JArray (map JString a)) = a.
Proof.
  unfold strings_of. induction a as [|x a IH]; [done|].
  cbn. f_equal. exact IH.
Qed.

Lemma forallb_map_JString (a : list jsstring) :
  forallb typeof_string (map JString a) = true.
Proof. by induction a. Qed.

Lemma regexArrayToString_many (x y : jsstring) (rest : list jsstring) :
  regexArrayToString (x :: y :: rest) = JSON_stringify (x :: y :: rest).
Proof. reflexivity. Qed.

(** The text written by [JSON.stringify] is bracketed and free of outer
    white space. *)
Lemma JSON_stringify_trim (a : list jsstring) :
  trim (JSON_stringify a) = JSON_stringify a.
Proof. unfold JSON_stringify. by apply trim_visible_ends. Qed.

Lemma JSON_stringify_brackets (a : list jsstring) :
  bracket_looking (JSON_stringify a).
Proof.
  unfold bracket_looking, JSON_stringify, endsWith. split; [done|].
  rewrite !rev_app_distr. done.
Qed.

Lemma parse_stringify (a : list jsstring) :
  parseRegexValue RegExp_compiles (Some (JSON_stringify a))
  = Normal {| format := FArray; array := a; raw := JSON_stringify a;
              isValid := true; error := None |}.
Proof.
  destruct (JSON_stringify_brackets a) as [H1 H2].
  rewrite (parse_array _ (map JString a));
    rewrite ?JSON_stringify_trim; try done; [|apply JSON_parse_stringify].
  by rewrite forallb_map_JString, strings_of_map_JString.
Qed.

Lemma findMatchingPreset_first (pattern name : jsstring)
    (presets : list (jsstring * jsstring)) :
  findMatchingPreset pattern presets = Some name
  <-> first_match pattern presets name.
Proof.
  induction presets as [|[n q] presets IH]; simpl.
  - split; [done|]. intros (before & after & E & _). by destruct before.
  - case_bool_decide as Hq.
    + subst q. split.
      * intros [= ->]. exists [], presets. by split.
      * intros (before & after & E & Hall). destruct before as [|b before].
        -- by simplify_eq/=.
        -- simplify_eq/=. by apply Forall_cons in Hall as [? _].
    + rewrite IH. split.
      * intros (before & after & -> & Hall).
        exists ((n, q) :: before), after. split; [done|].
        by apply Forall_cons.
      * intros (before & after & E & Hall). destruct before as [|b before].
        -- by simplify_eq/=.
        -- simplify_eq/=. apply Forall_cons in Hall as [_ Hall].
           by exists before, after.
Qed.

(** ** The claims about the format model *)

(** C1.  [detectRegexFormat] never throws.  It returns 'empty' exactly when
    the value is absent or trims to the empty string; 'array' exactly when the
    trimmed text starts with [[], ends with []] and decodes as JSON to a list,
    whatever the elements are; and 'string' in every other case, in particular
    for bracketed text on which [JSON.parse] throws. *)
Theorem detectRegexFormat_classification (value : option jsstring) :
  (exists f, detectRegexFormat value = Normal f) /\
  (detectRegexFormat value = Normal FEmpty
   <-> value = None \/ exists s, value = Some s /\ trim s = []) /\
  (detectRegexFormat value = Normal FArray
   <-> exists s, value = Some s /\ json_array_text (trim s)) /\
  (detectRegexFormat value = Normal FString
   <-> exists s, value = Some s /\ trim s <> [] /\ ~ json_array_text (trim s)) /\
  (forall s e, value = Some s -> bracket_looking (trim s) ->
               JSON_parse (trim s) = Throw e ->
               detectRegexFormat value = Normal FString).
Proof.
  assert (forall s, json_array_text (trim s) -> trim s <> []) as Hne.
  { intros s (H & _) E. by rewrite E in H. }
  destruct (blank value) eqn:Hb.
  - pose proof (detect_blank value Hb) as E. rewrite E.
    apply blank_true_iff in Hb.
    split; [by eexists|]. split; [done|]. split; [|split].
    + split; [done|]. intros (s & -> & H). apply Hne in H.
      destruct Hb as [|(? & [= <-] & ?)]; done.
    + split; [done|]. intros (s & -> & H & _).
      destruct Hb as [|(? & [= <-] & ?)]; done.
    + intros s e -> [H _] _. destruct Hb as [|(? & [= <-] & Hs)]; [done|].
      by rewrite Hs in H.
  - pose proof Hb as Hb'. apply blank_false_iff in Hb' as (s & -> & Hs).
    destruct (json_array_text_dec (trim s)) as [Ha|Hn].
    + rewrite (detect_array s Ha).
      split; [by eexists|]. split; [|split; [|split]].
      * split; [done|]. intros [|(? & [= <-] & ?)]; done.
      * split; [by exists s|done].
      * split; [done|]. by intros (? & [= <-] & _ & ?).
      * intros ? e [= <-] _ E. destruct Ha as (_ & _ & items & Hi).
        by rewrite Hi in E.
    + rewrite (detect_string s Hb Hn).
      split; [by eexists|]. split; [|split; [|split]].
      * split; [done|]. intros [|(? & [= <-] & ?)]; done.
      * split; [done|]. by intros (? & [= <-] & ?).
      * split; [by exists s|done].
      * done.
Qed.

(** C3.  When [detectRegexFormat] classifies the trimmed text as 'array',
    the text decodes to a list and [parseRegexValue] returns, without
    throwing: the elements in order with [isValid: true] if all of them are
    strings, and otherwise no patterns, [isValid: false] and the error
    'Array contains non-string values', as for ['[1,2]']. *)
Theorem parseRegexValue_array (s : jsstring) :
  detectRegexFormat (Some (trim s)) = Normal FArray ->
  (exists items,
     JSON_parse (trim s) = Normal (JArray items) /\
     (forallb typeof_string items = true ->
      exists patterns,
        items = map JString patterns /\
        parseRegexValue RegExp_compiles (Some s)
        = Normal {| format := FArray; array := patterns; raw := trim s;
                    isValid := true; error := None |}) /\
     (forallb typeof_string items = false ->
      parseRegexValue RegExp_compiles (Some s)
      = Normal {| format := FArray; array := []; raw := trim s;
                  isValid := false;
                  error := Some (js "Array contains non-string values") |})) /\
  parseRegexValue RegExp_compiles (Some (js "[1,2]"))
  = Normal {| format := FArray; array := []; raw := js "[1,2]";
              isValid := false;
              error := Some (js "Array contains non-string values") |}.
Proof.
  intros H. split; [|done].
  apply detect_array_inv in H as (? & [= <-] & H).
  rewrite trim_idem in H. destruct H as (H1 & H2 & items & H3).
  exists items. split; [done|].
  rewrite (parse_array s items H1 H2 H3).
  split; intros Hall; rewrite Hall; [|done].
  eexists. split; [|done]. by apply strings_of_all_strings.
Qed.

(** C4, as amended.  On a malformed storage value [parseRegexValue] returns
    without throwing.  For a JSON array with an element that is not a string
    the result has format 'array', [isValid: false] and the error 'Array
    contains non-string values'.  For bracketed text that is not JSON the
    result has format 'string', the trimmed text as its only pattern, no
    error field, and is valid exactly when the text compiles as a regular
    expression. *)
Theorem parseRegexValue_malformed (s : jsstring) :
  malformed_storage_value s ->
  exists r,
    parseRegexValue RegExp_compiles (Some s) = Normal r /\
    ((exists items, JSON_parse (trim s) = Normal (JArray items)) ->
     format r = FArray /\ array r = [] /\ isValid r = false /\
     error r = Some (js "Array contains non-string values")) /\
    ((exists e, JSON_parse (trim s) = Throw e) ->
     format r = FString /\ array r = [trim s] /\
     isValid r = RegExp_compiles (trim s) /\ error r = None).
Proof.
  intros ([H1 H2] & [(e & He)|(items & Hi & Hs)]).
  - assert (~ json_array_text (trim s)) as Hn.
    { intros (_ & _ & items & Hi). by rewrite Hi in He. }
    assert (blank (Some s) = false) as Hb.
    { rewrite blank_Some. apply bool_decide_eq_false_2. intros E.
      by rewrite E in H1. }
    eexists. split; [by apply parse_string|]. split; [|done].
    intros (items & Hi). by rewrite Hi in He.
  - eexists. split; [by apply (parse_array s items)|]. rewrite Hs.
    split; [done|]. intros (e & He). by rewrite He in Hi.
Qed.

(** C10.  [parseRegexValue] returns normally on every input and its result
    never carries the error 'Invalid JSON format': when the trimmed text is
    classified as 'array', decoding that same text succeeds. *)
Theorem parseRegexValue_never_invalid_json (value : option jsstring) :
  (exists r, parseRegexValue RegExp_compiles value = Normal r /\
             error r <> Some (js "Invalid JSON format")) /\
  (forall s, value = Some s ->
             detectRegexFormat (Some (trim s)) = Normal FArray ->
             exists items, JSON_parse (trim s) = Normal (JArray items)).
Proof.
  split; [apply parse_total|].
  intros s -> H. apply detect_array_inv in H as (? & [= <-] & H).
  rewrite trim_idem in H. by destruct H as (_ & _ & H).
Qed.

(** C2.  Serialising two or more distinct patterns and parsing the result
    gives the patterns back, with format 'array' and [isValid: true]. *)
Theorem parse_serialize_roundtrip (p : list jsstring) :
  (2 <= length p)%nat -> NoDup p ->
  parseRegexValue RegExp_compiles (Some (regexArrayToString p))
  = Normal {| format := FArray; array := p; raw := regexArrayToString p;
              isValid := true; error := None |}.
Proof.
  intros Hlen _. destruct p as [|x [|y rest]]; [simpl in Hlen; lia..|].
  rewrite regexArrayToString_many. apply parse_stringify.
Qed.

(** C7.  The collapse law: one pattern is serialised as itself, untouched;
    no pattern as the empty string; two or more as the JSON array literal of
    the sequence, which decodes to exactly its strings. *)
Theorem regexArrayToString_collapse :
  (forall x : jsstring, regexArrayToString [x] = x) /\
  regexArrayToString [] = [] /\
  (forall p : list jsstring, (2 <= length p)%nat ->
     regexArrayToString p
     = [LBRACKET] ++ join_comma (map QuoteJSONString p) ++ [RBRACKET] /\
     JSON_parse (regexArrayToString p) = Normal (JArray (map JString p))).
Proof.
  split; [done|]. split; [done|].
  intros p Hlen. destruct p as [|x [|y rest]]; [simpl in Hlen; lia..|].
  rewrite regexArrayToString_many. split; [done|]. apply JSON_parse_stringify.
Qed.

(** C9.  [getMatchingPresetName] returns a name only for a one-element
    sequence, and then the first name of the map whose pattern is that
    element; for no element or several it returns null. *)
Theorem getMatchingPresetName_single (patterns : list jsstring)
    (presets : list (jsstring * jsstring)) :
  (forall name,
     getMatchingPresetName patterns presets = Some name
     <-> exists x, patterns = [x] /\ first_match x presets name) /\
  (length patterns <> 1%nat -> getMatchingPresetName patterns presets = None) /\
  getMatchingPresetName [js "1080p.*"; js "720p.*"] [(js "HD", js "1080p.*")]
  = None /\
  getMatchingPresetName [js "1080p.*"] [(js "HD", js "1080p.*")]
  = Some (js "HD").
Proof.
  split; [|split; [|done]].
  - intros name. unfold getMatchingPresetName.
    destruct patterns as [|x [|y rest]]; simpl.
    + split; [done|]. by intros (? & ? & _).
    + rewrite findMatchingPreset_first. split.
      * intros H. by exists x.
      * by intros (? & [= <-] & H).
    + split; [done|]. by intros (? & ? & _).
  - intros H. unfold getMatchingPresetName.
    by rewrite bool_decide_eq_false_2.
Qed.

End FormatModelFacts.

(** * Properties of the two validators *)

Section ValidationFacts.
Import Host EnvUtils.

Variable RegExp_compiles : jsstring -> bool.

Lemma repeats_earlier_tail (p0 : jsstring) (rest : list jsstring) (k : nat)
    (p : jsstring) (seen : gset jsstring) :
  rest !! k = Some p ->
  trim p ∈ seen \/ repeats_earlier (p0 :: rest) (S k) ->
  trim p ∈ ({[ trim p0 ]} ∪ seen : gset jsstring) \/ repeats_earlier rest k.
Proof.
  intros Hk [Hin|(j & p' & q & Hj & Hp & Hq & E)]; [left; set_solver|].
  simpl in Hp. assert (p' = p) as -> by congruence.
  destruct j as [|j]; simpl in Hq.
  - left. assert (q = p0) as -> by congruence. rewrite E. set_solver.
  - right. exists j, p, q. repeat split; try done. lia.
Qed.

Lemma repeats_earlier_head (p0 : jsstring) (rest : list jsstring) :
  ~ repeats_earlier (p0 :: rest) 0.
Proof. intros (j & _ & _ & Hj & _). lia. Qed.

(** The first loop appends its messages, among them 'Invalid regex syntax'
    for every position that is not blank and does not compile. *)
Lemma check_patterns_spec (patterns : list jsstring) :
  forall (i : nat) (errs : list jsstring),
  exists msgs,
    check_patterns RegExp_compiles i patterns errs = Normal (errs ++ msgs) /\
    (forall k p, patterns !! k = Some p -> blank (Some p) = false ->
                 RegExp_compiles p = false -> msg_invalid (i + k) ∈ msgs).
Proof.
  induction patterns as [|p0 rest IH]; intros i errs.
  - exists []. split; [by rewrite app_nil_r|]. by intros k p H.
  - cbn [check_patterns]. rewrite validateRegexPattern_normal.
    destruct (blank (Some p0)) eqn:Hb.
    + destruct (IH (S i) (errs ++ [msg_empty i])) as (msgs & E & Hm).
      exists (msg_empty i :: msgs). rewrite E, <- app_assoc. split; [done|].
      intros [|k] p Hk Hbp Hrx; simpl in Hk.
      * congruence.
      * apply elem_of_cons. right.
        replace (i + S k)%nat with (S i + k)%nat by lia. by eapply Hm.
    + cbn [negb andb mbind completion_bind].
      destruct (RegExp_compiles p0) eqn:Hrx0; cbn [negb].
      * destruct (IH (S i) errs) as (msgs & E & Hm).
        exists msgs. split; [done|].
        intros [|k] p Hk Hbp Hrx; simpl in Hk.
        -- congruence.
        -- replace (i + S k)%nat with (S i + k)%nat by lia. by eapply Hm.
      * destruct (IH (S i) (errs ++ [msg_invalid i])) as (msgs & E & Hm).
        exists (msg_invalid i :: msgs). rewrite E, <- app_assoc.
        split; [done|].
        intros [|k] p Hk Hbp Hrx; simpl in Hk.
        -- rewrite Nat.add_0_r. apply elem_of_cons. by left.
        -- apply elem_of_cons. right.
           replace (i + S k)%nat with (S i + k)%nat by lia. by eapply Hm.
Qed.

(** The second loop appends a 'Duplicate pattern' message for every position
    whose trimmed text is not empty and was seen before. *)
Lemma check_duplicates_spec (patterns : list jsstring) :
  forall (i : nat) (seen : gset jsstring) (errs : list jsstring),
  exists msgs,
    check_duplicates i patterns seen errs = errs ++ msgs /\
    (forall k p, patterns !! k = Some p -> trim p <> [] ->
                 trim p ∈ seen \/ repeats_earlier patterns k ->
                 msg_duplicate (i + k) (trim p) ∈ msgs).
Proof.
  induction patterns as [|p0 rest IH]; intros i seen errs.
  - exists []. split; [by rewrite app_nil_r|]. by intros k p H.
  - cbn [check_duplicates].
    destruct (IH (S i) ({[ trim p0 ]} ∪ seen)
                (if negb (falsy (Some (trim p0))) && bool_decide (trim p0 ∈ seen)
                 then errs ++ [msg_duplicate i (trim p0)] else errs))
      as (msgs & E & Hm).
    rewrite E.
    exists ((if negb (falsy (Some (trim p0))) && bool_decide (trim p0 ∈ seen)
             then [msg_duplicate i (trim p0)] else []) ++ msgs).
    split.
    + destruct (negb (falsy (Some (trim p0))) && bool_decide (trim p0 ∈ seen));
        by rewrite <- ?app_assoc.
    + intros [|k] p Hk Hne Hrep; simpl in Hk.
      * assert (p = p0) as -> by congruence.
        destruct Hrep as [Hin|Hrep]; [|by apply repeats_earlier_head in Hrep].
        unfold falsy. rewrite bool_decide_eq_false_2 by done.
        rewrite bool_decide_eq_true_2 by done. rewrite Nat.add_0_r.
        apply elem_of_app. left. by apply list_elem_of_singleton.
      * apply elem_of_app. right.
        replace (i + S k)%nat with (S i + k)%nat by lia.
        eapply Hm; [done..|]. by eapply repeats_earlier_tail.
Qed.

Lemma validateRegexArray_normal (patterns : list jsstring) :
  exists msgs1 msgs2,
    validateRegexArray RegExp_compiles patterns
    = Normal {| allValid := bool_decide (length (msgs1 ++ msgs2) = 0%nat);
                errors := msgs1 ++ msgs2 |} /\
    (forall k p, patterns !! k = Some p -> blank (Some p) = false ->
                 RegExp_compiles p = false -> msg_invalid k ∈ msgs1) /\
    (forall k p, patterns !! k = Some p -> trim p <> [] ->
                 repeats_earlier patterns k ->
                 msg_duplicate k (trim p) ∈ msgs2).
Proof.
  unfold validateRegexArray.
  destruct (check_patterns_spec patterns 0 []) as (msgs1 & E1 & H1).
  destruct (check_duplicates_spec patterns 0 ∅ msgs1) as (msgs2 & E2 & H2).
  exists msgs1, msgs2. rewrite E1. cbn [mbind completion_bind app].
  rewrite E2. split; [done|]. split.
  - intros k p. apply (H1 k p).
  - intros k p Hk Hne Hrep. apply (H2 k p); auto.
Qed.

(** The diagnostic the editor computes for one pattern. *)
Lemma validatePattern_normal (pattern : jsstring) :
  Editor.validatePattern RegExp_compiles pattern
  = Normal (if blank (Some pattern) then Some (js "Pattern cannot be empty")
            else if RegExp_compiles pattern then None
            else Some (js "Invalid regex syntax")).
Proof.
  unfold Editor.validatePattern, new_RegExp.
  destruct (blank (Some pattern)); [done|].
  by destruct (RegExp_compiles pattern).
Qed.

(** The first pass of [updatePatterns] leaves the earlier keys alone and
    stores the diagnostic of every position that has one. *)
Lemma validate_from_spec (patterns : list jsstring) :
  forall (i : nat) (m : gmap nat jsstring),
  exists m',
    Editor.validate_from RegExp_compiles i patterns m = Normal m' /\
    (forall j, (j < i)%nat -> m' !! j = m !! j) /\
    (forall k p, patterns !! k = Some p -> blank (Some p) = false ->
                 RegExp_compiles p = false ->
                 m' !! (i + k)%nat = Some (js "Invalid regex syntax")).
Proof.
  induction patterns as [|p0 rest IH]; intros i m.
  - exists m. split; [done|]. split; [done|]. by intros k p H.
  - cbn [Editor.validate_from]. rewrite validatePattern_normal.
    cbn [mbind completion_bind].
    set (m1 := if negb (falsy _) then _ else m).
    destruct (IH (S i) m1) as (m' & E & Hlow & Hm).
    exists m'. split; [done|]. split.
    + intros j Hj. rewrite Hlow by lia. subst m1.
      destruct (negb _); [|done]. rewrite lookup_insert_ne by lia. done.
    + intros [|k] p Hk Hb Hrx; simpl in Hk.
      * assert (p = p0) as -> by congruence.
        rewrite Nat.add_0_r, Hlow by lia. subst m1. rewrite Hb, Hrx.
        cbn. by rewrite lookup_insert_eq.
      * replace (i + S k)%nat with (S i + k)%nat by lia. by eapply Hm.
Qed.

(** [checkDuplicates] leaves the earlier keys alone and stores 'Duplicate
    pattern' at every position whose trimmed text is not empty and was seen
    before. *)
Lemma checkDuplicates_from_spec (patterns : list jsstring) :
  forall (i : nat) (seen : gset jsstring) (m : gmap nat jsstring),
    (forall j, (j < i)%nat ->
       Editor.checkDuplicates_from i patterns seen m !! j = m !! j) /\
    (forall k p, patterns !! k = Some p -> trim p <> [] ->
       trim p ∈ seen \/ repeats_earlier patterns k ->
       Editor.checkDuplicates_from i patterns seen m !! (i + k)%nat
       = Some (js "Duplicate pattern")).
Proof.
  induction patterns as [|p0 rest IH]; intros i seen m.
  - split; [done|]. by intros k p H.
  - cbn [Editor.checkDuplicates_from].
    set (m1 := if negb (falsy _) && _ then _ else m).
    destruct (IH (S i) ({[ trim p0 ]} ∪ seen) m1) as (Hlow & Hm).
    split.
    + intros j Hj. rewrite Hlow by lia. subst m1.
      destruct (negb _ && _); [|done]. rewrite lookup_insert_ne by lia. done.
    + intros [|k] p Hk Hne Hrep; simpl in Hk.
      * assert (p = p0) as -> by congruence.
        destruct Hrep as [Hin|Hrep]; [|by apply repeats_earlier_head in Hrep].
        rewrite Nat.add_0_r, Hlow by lia. subst m1.
        unfold falsy. rewrite bool_decide_eq_false_2 by done.
        rewrite bool_decide_eq_true_2 by done. cbn.
        by rewrite lookup_insert_eq.
      * replace (i + S k)%nat with (S i + k)%nat by lia.
        eapply Hm; [done..|]. by eapply repeats_earlier_tail.
Qed.

Lemma updatePatterns_normal (newPatterns : list jsstring) (c : Editor.Component) :
  exists newErrors,
    Editor.validate_from RegExp_compiles 0 newPatterns ∅ = Normal newErrors /\
    Editor.updatePatterns RegExp_compiles newPatterns c
    = Normal {| Editor.editingIndex := Editor.editingIndex c;
                Editor.editingValue := Editor.editingValue c;
                Editor.errors :=
                  Editor.Object_assign newErrors
                    (Editor.checkDuplicates newPatterns);
                Editor.notified := Editor.notified c ++ [newPatterns] |}.
Proof.
  destruct (validate_from_spec newPatterns 0 ∅) as (m' & E & _).
  exists m'. split; [done|]. unfold Editor.updatePatterns. by rewrite E.
Qed.

(** ** The claims about the validators *)

(** C5, as amended.  [validateRegexArray] returns without throwing; every
    position whose trimmed text is not empty and equals the trimmed text of
    an earlier position is flagged as a duplicate; [isValid] is true exactly
    when there is no message; and on [["a","b","a"]], with [a] and [b]
    compiling, the only message is the duplicate flag of position 2. *)
Theorem validateRegexArray_duplicates (patterns : list jsstring) :
  (exists r,
     validateRegexArray RegExp_compiles patterns = Normal r /\
     (forall i p, patterns !! i = Some p -> trim p <> [] ->
                  repeats_earlier patterns i ->
                  msg_duplicate i (trim p) ∈ errors r) /\
     (allValid r = true <-> errors r = [])) /\
  (RegExp_compiles (js "a") = true -> RegExp_compiles (js "b") = true ->
   validateRegexArray RegExp_compiles [js "a"; js "b"; js "a"]
   = Normal {| allValid := false;
               errors := [js "Pattern 3: Duplicate pattern " ++ [QUOTE]
                          ++ js "a" ++ [QUOTE]] |}).
Proof.
  split.
  - destruct (validateRegexArray_normal patterns) as (m1 & m2 & E & _ & H2).
    eexists. split; [exact E|]. cbn [errors allValid]. split.
    + intros i p Hi Hne Hrep. apply elem_of_app. right. by eapply H2.
    + rewrite bool_decide_eq_true. split.
      * by intros H%length_zero_iff_nil.
      * by intros ->.
  - intros Ha Hb. unfold validateRegexArray. cbn [check_patterns].
    rewrite !validateRegexPattern_normal, Ha, Hb. reflexivity.
Qed.

(** C6, as amended.  For a position that does not compile and repeats the
    non-empty trimmed text of an earlier one, [validateRegexArray] keeps both
    messages in its list, the syntax message before the duplicate message;
    the editor's [updatePatterns] keys its diagnostics by position, and there
    the duplicate diagnostic, computed second, replaces the syntax one. *)
Theorem invalid_duplicate_diagnostics (patterns : list jsstring) (i : nat)
    (p : jsstring) (c : Editor.Component) :
  patterns !! i = Some p -> trim p <> [] -> RegExp_compiles p = false ->
  repeats_earlier patterns i ->
  (exists r before between after,
     validateRegexArray RegExp_compiles patterns = Normal r /\
     errors r = before ++ msg_invalid i :: between
                ++ msg_duplicate i (trim p) :: after) /\
  (exists newErrors c',
     Editor.validate_from RegExp_compiles 0 patterns ∅ = Normal newErrors /\
     newErrors !! i = Some (js "Invalid regex syntax") /\
     Editor.updatePatterns RegExp_compiles patterns c = Normal c' /\
     Editor.errors c' !! i = Some (js "Duplicate pattern")).
Proof.
  intros Hi Hne Hrx Hrep.
  assert (blank (Some p) = false) as Hb
    by (rewrite blank_Some; by apply bool_decide_eq_false_2).
  split.
  - destruct (validateRegexArray_normal patterns) as (m1 & m2 & E & H1 & H2).
    apply (H1 i p Hi Hb) in Hrx as Hin1.
    apply (H2 i p Hi Hne) in Hrep as Hin2.
    apply list_elem_of_split in Hin1 as (before & l1 & ->).
    apply list_elem_of_split in Hin2 as (l2 & after & ->).
    eexists _, before, (l1 ++ l2), after. split; [exact E|].
    cbn [errors]. by rewrite <- !app_assoc.
  - destruct (validate_from_spec patterns 0 ∅) as (m' & E & _ & Hm).
    destruct (updatePatterns_normal patterns c) as (m'' & E' & Eu).
    assert (m'' = m') as -> by congruence.
    eexists m', _. split; [done|]. split; [by apply (Hm i p)|].
    split; [exact Eu|]. cbn [Editor.errors]. unfold Editor.Object_assign.
    apply lookup_union_Some_l.
    destruct (checkDuplicates_from_spec patterns 0 ∅ ∅) as (_ & Hd).
    apply (Hd i p); auto.
Qed.

(** ** The claim about the editor *)

(** C8.  Move-up on position 0 and move-down on the last position change
    nothing and call nobody.  A move that exchanges position [i] with the
    next one calls [onPatternsChange] once, with the whole exchanged
    sequence, and leaves the edit state alone; so from [["x","y"]], moving
    position 0 down notifies the owner once, with [["y","x"]]. *)
Theorem move_handlers (patterns : list jsstring) (c : Editor.Component) :
  Editor.handleMoveUp RegExp_compiles patterns 0 c = Normal c /\
  Editor.handleMoveDown RegExp_compiles patterns (length patterns - 1) c
  = Normal c /\
  (forall i x y, patterns !! i = Some x -> patterns !! S i = Some y ->
     exists down up,
       Editor.handleMoveDown RegExp_compiles patterns i c = Normal down /\
       Editor.handleMoveUp RegExp_compiles patterns (S i) c = Normal up /\
       Editor.notified down
       = Editor.notified c ++ [<[S i := x]> (<[i := y]> patterns)] /\
       Editor.notified up = Editor.notified down /\
       Editor.editingIndex down = Editor.editingIndex c /\
       Editor.editingIndex up = Editor.editingIndex c) /\
  (exists c',
     Editor.handleMoveDown RegExp_compiles [js "x"; js "y"] 0 Editor.initial
     = Normal c' /\
     Editor.notified c' = [[js "y"; js "x"]] /\
     Editor.editingIndex c' = None /\
     Editor.setRegexArray [js "x"; js "y"] (Editor.notified c')
     = [js "y"; js "x"]).
Proof.
  split; [done|]. split.
  { unfold Editor.handleMoveDown. rewrite bool_decide_eq_false_2; [done|lia]. }
  split.
  - intros i x y Hx Hy.
    pose proof (lookup_lt_Some _ _ _ Hy) as Hlen.
    unfold Editor.handleMoveDown, Editor.handleMoveUp, Editor.swapped.
    rewrite bool_decide_eq_true_2 by lia.
    rewrite bool_decide_eq_true_2 by lia.
    replace (i + 1)%nat with (S i) by lia.
    replace (S i - 1)%nat with i by lia.
    rewrite Hx, Hy. cbn [mbind completion_bind mret completion_ret].
    rewrite (list_insert_insert_ne _ i (S i)) by lia.
    destruct (updatePatterns_normal (<[S i := x]> (<[i := y]> patterns)) c)
      as (m & _ & ->).
    by eexists _, _.
  - unfold Editor.handleMoveDown, Editor.swapped.
    rewrite bool_decide_eq_true_2 by (simpl; lia).
    cbn [lookup list_lookup Nat.add mbind completion_bind mret completion_ret].
    destruct (updatePatterns_normal (<[1%nat := js "x"]> (<[0%nat := js "y"]>
                [js "x"; js "y"])) Editor.initial) as (m & _ & ->).
    by eexists.
Qed.

End ValidationFacts.

(** * The statements at concrete inputs *)

Section Instances.
Import Host EnvUtils.

Lemma detectRegexFormat_classification_witness :
  bracket_looking (trim (js "[abc]")) /\
  JSON_parse (trim (js "[abc]")) = Throw SyntaxError /\
  detectRegexFormat (Some (js "[abc]")) = Normal FString.
Proof.
  assert (bracket_looking (trim (js "[abc]"))) as Hb by (split; reflexivity).
  assert (JSON_parse (trim (js "[abc]")) = Throw SyntaxError) as Hp
    by reflexivity.
  split; [exact Hb|]. split; [exact Hp|].
  destruct (detectRegexFormat_classification (Some (js "[abc]")))
    as (_ & _ & _ & _ & H).
  exact (H (js "[abc]") SyntaxError eq_refl Hb Hp).
Defined.

Lemma parse_serialize_roundtrip_witness :
  (2 <= length [js "a"; js "b"])%nat /\ NoDup [js "a"; js "b"] /\
  parseRegexValue balanced_brackets (Some (regexArrayToString [js "a"; js "b"]))
  = Normal {| format := FArray; array := [js "a"; js "b"];
              raw := regexArrayToString [js "a"; js "b"];
              isValid := true; error := None |}.
Proof.
  assert (2 <= length [js "a"; js "b"])%nat as Hlen by (simpl; lia).
  assert (NoDup [js "a"; js "b"]) as Hnd.
  { apply NoDup_cons. split; [|apply NoDup_singleton].
    intros Hin%list_elem_of_singleton. vm_compute in Hin. discriminate Hin. }
  split; [exact Hlen|]. split; [exact Hnd|].
  exact (parse_serialize_roundtrip balanced_brackets _ Hlen Hnd).
Defined.

Lemma parseRegexValue_array_witness :
  detectRegexFormat (Some (trim (js " [1,2] "))) = Normal FArray /\
  exists items, JSON_parse (trim (js " [1,2] ")) = Normal (JArray items) /\
    parseRegexValue balanced_brackets (Some (js " [1,2] "))
    = Normal {| format := FArray; array := []; raw := js "[1,2]";
                isValid := false;
                error := Some (js "Array contains non-string values") |}.
Proof.
  assert (detectRegexFormat (Some (trim (js " [1,2] "))) = Normal FArray) as Hd
    by reflexivity.
  split; [exact Hd|].
  destruct (parseRegexValue_array balanced_brackets (js " [1,2] ") Hd)
    as ((items & Hi & _ & Hbad) & _).
  exists items. split; [exact Hi|]. apply Hbad.
  vm_compute in Hi. injection Hi as <-. reflexivity.
Defined.

Lemma parseRegexValue_malformed_witness :
  malformed_storage_value (js "[abc]") /\
  exists r, parseRegexValue balanced_brackets (Some (js "[abc]")) = Normal r /\
            format r = FString /\ array r = [js "[abc]"] /\
            isValid r = true /\ error r = None.
Proof.
  assert (malformed_storage_value (js "[abc]")) as Hm.
  { split; [split; reflexivity|]. left. by exists SyntaxError. }
  split; [exact Hm|].
  destruct (parseRegexValue_malformed balanced_brackets (js "[abc]") Hm)
    as (r & E & _ & H).
  exists r. split; [exact E|]. apply H. by exists SyntaxError.
Defined.

Example parseRegexValue_bracketed_pattern :
  parseRegexValue balanced_brackets (Some (js "[abc]"))
  = Normal {| format := FString; array := [js "[abc]"]; raw := js "[abc]";
              isValid := true; error := None |}.
Proof. reflexivity. Qed.

(** C4 as stated fails: ['[abc]'] is bracketed and is not JSON, and it is
    parsed as a single pattern without an error field. *)
Lemma parseRegexValue_malformed_counterexample :
  ~ (forall (RegExp_compiles : jsstring -> bool) (s : jsstring),
       malformed_storage_value s ->
       exists r, parseRegexValue RegExp_compiles (Some s) = Normal r /\
                 isValid r = false /\ is_Some (error r)).
Proof.
  intros H.
  destruct (H balanced_brackets (js "[abc]")) as (r & E & _ & He).
  { split; [split; reflexivity|]. left. by exists SyntaxError. }
  vm_compute in E. injection E as <-. by destruct He.
Qed.

Lemma parseRegexValue_never_invalid_json_witness :
  detectRegexFormat (Some (trim (js "[1,2]"))) = Normal FArray /\
  exists items, JSON_parse (trim (js "[1,2]")) = Normal (JArray items).
Proof.
  assert (detectRegexFormat (Some (trim (js "[1,2]"))) = Normal FArray) as Hd
    by reflexivity.
  split; [exact Hd|].
  destruct (parseRegexValue_never_invalid_json balanced_brackets
              (Some (js "[1,2]"))) as (_ & H).
  exact (H (js "[1,2]") eq_refl Hd).
Defined.

Lemma regexArrayToString_collapse_witness :
  (2 <= length [js "a"; js "b"])%nat /\
  JSON_parse (regexArrayToString [js "a"; js "b"])
  = Normal (JArray [JString (js "a"); JString (js "b")]).
Proof.
  assert (2 <= length [js "a"; js "b"])%nat as Hlen by (simpl; lia).
  split; [exact Hlen|].
  destruct regexArrayToString_collapse as (_ & _ & H).
  exact (proj2 (H [js "a"; js "b"] Hlen)).
Defined.

Lemma getMatchingPresetName_single_witness :
  length (@nil jsstring) <> 1%nat /\
  getMatchingPresetName [] [(js "HD", js "1080p.*")] = None.
Proof.
  assert (length (@nil jsstring) <> 1%nat) as Hlen by (simpl; lia).
  split; [exact Hlen|].
  destruct (getMatchingPresetName_single [] [(js "HD", js "1080p.*")])
    as (_ & H & _).
  exact (H Hlen).
Defined.

Lemma validateRegexArray_duplicates_witness :
  balanced_brackets (js "a") = true /\ balanced_brackets (js "b") = true /\
  validateRegexArray balanced_brackets [js "a"; js "b"; js "a"]
  = Normal {| allValid := false;
              errors := [js "Pattern 3: Duplicate pattern " ++ [QUOTE]
                         ++ js "a" ++ [QUOTE]] |}.
Proof.
  split; [reflexivity|]. split; [reflexivity|].
  destruct (validateRegexArray_duplicates balanced_brackets
              [js "a"; js "b"; js "a"]) as (_ & H).
  exact (H eq_refl eq_refl).
Defined.

Example validateRegexArray_two_blanks :
  validateRegexArray balanced_brackets [[]; []]
  = Normal {| allValid := false;
              errors := [js "Pattern 1: Empty pattern";
                         js "Pattern 2: Empty pattern"] |}.
Proof. reflexivity. Qed.

(** C5 as stated fails: in [["",""]] position 1 repeats the trimmed text of
    position 0 and is flagged as empty, not as a duplicate. *)
Lemma validateRegexArray_duplicates_counterexample :
  ~ (forall (RegExp_compiles : jsstring -> bool) (patterns : list jsstring)
            (i : nat) (p : jsstring),
       patterns !! i = Some p -> repeats_earlier patterns i ->
       exists r, validateRegexArray RegExp_compiles patterns = Normal r /\
                 msg_duplicate i (trim p) ∈ errors r).
Proof.
  intros H.
  destruct (H balanced_brackets [[]; []] 1%nat []) as (r & E & Hin).
  { reflexivity. }
  { exists 0%nat, [], []. repeat split; [lia|reflexivity..]. }
  vm_compute in E. injection E as <-.
  apply list_elem_of_In in Hin. simpl in Hin.
  destruct Hin as [Hin|[Hin|[]]]; vm_compute in Hin; discriminate Hin.
Qed.

Lemma invalid_duplicate_diagnostics_witness :
  [js "("; js "("] !! 1%nat = Some (js "(") /\ trim (js "(") <> [] /\
  balanced_brackets (js "(") = false /\
  repeats_earlier [js "("; js "("] 1 /\
  exists c',
    Editor.updatePatterns balanced_brackets [js "("; js "("] Editor.initial
    = Normal c' /\
    Editor.errors c' !! 1%nat = Some (js "Duplicate pattern").
Proof.
  assert (trim (js "(") <> []) as Hne by (vm_compute; discriminate).
  assert (repeats_earlier [js "("; js "("] 1) as Hrep.
  { exists 0%nat, (js "("), (js "("). repeat split; [lia|reflexivity..]. }
  split; [reflexivity|]. split; [exact Hne|]. split; [reflexivity|].
  split; [exact Hrep|].
  destruct (invalid_duplicate_diagnostics balanced_brackets
              [js "("; js "("] 1 (js "(") Editor.initial
              eq_refl Hne eq_refl Hrep)
    as (_ & _ & c' & _ & _ & E & H).
  by exists c'.
Defined.

Example validateRegexArray_two_open_brackets :
  validateRegexArray balanced_brackets [js "("; js "("]
  = Normal {| allValid := false;
              errors := [js "Pattern 1: Invalid regex syntax";
                         js "Pattern 2: Invalid regex syntax";
                         js "Pattern 2: Duplicate pattern " ++ [QUOTE]
                         ++ js "(" ++ [QUOTE]] |}.
Proof. reflexivity. Qed.

Example messages_for_two_open_brackets :
  messages_for 1 [js "Pattern 1: Invalid regex syntax";
                  js "Pattern 2: Invalid regex syntax";
                  js "Pattern 2: Duplicate pattern " ++ [QUOTE]
                  ++ js "(" ++ [QUOTE]]
  = [js "Pattern 2: Invalid regex syntax";
     js "Pattern 2: Duplicate pattern " ++ [QUOTE] ++ js "(" ++ [QUOTE]].
Proof. reflexivity. Qed.

Example updatePatterns_two_open_brackets :
  exists c,
    Editor.updatePatterns balanced_brackets [js "("; js "("] Editor.initial
    = Normal c /\
    Editor.errors c !! 0%nat = Some (js "Invalid regex syntax") /\
    Editor.errors c !! 1%nat = Some (js "Duplicate pattern") /\
    Editor.notified c = [[js "("; js "("]].
Proof. eexists. split; [reflexivity|]. by vm_compute. Qed.

(** C6 as stated fails for [validateRegexArray]: on [["(","("]] its list
    holds two messages about position 1. *)
Lemma invalid_duplicate_diagnostics_counterexample :
  ~ (forall (RegExp_compiles : jsstring -> bool) (patterns : list jsstring)
            (i : nat) (p : jsstring),
       patterns !! i = Some p -> trim p <> [] -> RegExp_compiles p = false ->
       repeats_earlier patterns i ->
       exists r, validateRegexArray RegExp_compiles patterns = Normal r /\
                 messages_for i (errors r) = [msg_duplicate i (trim p)]).
Proof.
  intros H.
  destruct (H balanced_brackets [js "("; js "("] 1%nat (js "("))
    as (r & E & Hm).
  { reflexivity. }
  { vm_compute. discriminate. }
  { reflexivity. }
  { exists 0%nat, (js "("), (js "("). repeat split; [lia|reflexivity..]. }
  vm_compute in E. injection E as <-. vm_compute in Hm. discriminate Hm.
Qed.

Lemma move_handlers_witness :
  [js "x"; js "y"] !! 0%nat = Some (js "x") /\
  [js "x"; js "y"] !! 1%nat = Some (js "y") /\
  exists down,
    Editor.handleMoveDown balanced_brackets [js "x"; js "y"] 0 Editor.initial
    = Normal down /\
    Editor.notified down = [[js "y"; js "x"]].
Proof.
  split; [reflexivity|]. split; [reflexivity|].
  destruct (move_handlers balanced_brackets [js "x"; js "y"] Editor.initial)
    as (_ & _ & H & _).
  destruct (H 0%nat (js "x") (js "y") eq_refl eq_refl)
    as (down & up & Ed & _ & Hn & _).
  exists down. split; [exact Ed|exact Hn].
Defined.

End Instances.

(** * Further properties: the closed forms of the two validators *)

Section ClosedForms.
Import Host EnvUtils.

Variable RegExp_compiles : jsstring -> bool.

Local Arguments js : simpl never.

Lemma concat_imap_nil {A B : Type} (f : nat -> A -> list B) (l : list A) :
  concat (imap f l) = [] <-> forall k x, l !! k = Some x -> f k x = [].
Proof.
  revert f. induction l as [|x l IH]; intros f; simpl.
  - split; [by intros _ k y H|done].
  - split.
    + intros [H0 Hl]%app_nil [|k] y Hk; simpl in Hk.
      * by simplify_eq.
      * by apply (proj1 (IH (f ∘ S)) Hl k y).
    + intros H. apply app_nil. split; [by apply (H 0%nat)|].
      apply IH. intros k y Hk. by apply (H (S k)).
Qed.

(** A list has no repetition when no entry occurs in the prefix before it. *)
Lemma NoDup_prefixes {A : Type} (l : list A) :
  NoDup l <-> forall k x, l !! k = Some x -> x ∉ take k l.
Proof.
  rewrite NoDup_alt. split.
  - intros H k x Hk [j Hj]%list_elem_of_lookup.
    apply lookup_take_Some in Hj as [Hj Hlt].
    specialize (H _ _ _ Hk Hj). lia.
  - intros H i j x Hi Hj.
    destruct (Nat.lt_trichotomy i j) as [Hlt|[->|Hlt]]; [|done|].
    + exfalso. apply (H j x Hj). apply list_elem_of_lookup. exists i.
      by apply lookup_take_Some.
    + exfalso. apply (H i x Hi). apply list_elem_of_lookup. exists j.
      by apply lookup_take_Some.
Qed.

Lemma check_patterns_closed (patterns : list jsstring) :
  forall (i : nat) (errs : list jsstring),
  check_patterns RegExp_compiles i patterns errs
  = Normal (errs ++ concat (imap (fun k p =>
                              pattern_message RegExp_compiles (i + k) p)
                            patterns)).
Proof.
  induction patterns as [|p0 rest IH]; intros i errs.
  - simpl. by rewrite app_nil_r.
  - cbn [check_patterns imap concat]. rewrite validateRegexPattern_normal.
    rewrite Nat.add_0_r. unfold pattern_message at 1.
    rewrite (imap_ext _ (fun k p => pattern_message RegExp_compiles (S i + k) p))
      by (intros k p _; simpl; f_equal; lia).
    destruct (blank (Some p0)).
    + by rewrite IH, <- app_assoc.
    + cbn [negb andb mbind completion_bind].
      destruct (RegExp_compiles p0); cbn [negb].
      * by rewrite IH.
      * by rewrite IH, <- app_assoc.
Qed.

Lemma check_duplicates_closed (patterns : list jsstring) :
  forall (i : nat) (seen : gset jsstring) (errs : list jsstring),
  check_duplicates i patterns seen errs
  = errs ++ concat (imap (fun k p =>
              if bool_decide (trim p <> [] /\
                              (trim p ∈ seen \/ trim p ∈ trim <$> take k patterns))
              then [msg_duplicate (i + k) (trim p)] else [])
            patterns).
Proof.
  induction patterns as [|p0 rest IH]; intros i seen errs.
  - simpl. by rewrite app_nil_r.
  - cbn [check_duplicates imap concat]. rewrite IH, Nat.add_0_r.
    rewrite (imap_ext (_ ∘ S)
               (fun k p =>
                  if bool_decide (trim p <> [] /\
                       (trim p ∈ ({[ trim p0 ]} ∪ seen : gset jsstring)
                        \/ trim p ∈ trim <$> take k rest))
                  then [msg_duplicate (S i + k) (trim p)] else [])).
    2:{ intros k p _. simpl.
        replace (i + S k)%nat with (S (i + k)) by lia.
        erewrite bool_decide_ext; [done|].
        rewrite elem_of_cons, elem_of_union, elem_of_singleton. tauto. }
    assert (negb (falsy (Some (trim p0))) && bool_decide (trim p0 ∈ seen)
            = bool_decide (trim p0 <> [] /\
                (trim p0 ∈ seen \/ trim p0 ∈ trim <$> take 0 (p0 :: rest))))
      as ->.
    { unfold falsy. simpl take. simpl fmap.
      destruct (decide (trim p0 = [])) as [E|E].
      - rewrite bool_decide_eq_true_2 by done.
        rewrite (bool_decide_eq_false_2 (_ /\ _)); [done|]. by intros [? _].
      - rewrite bool_decide_eq_false_2 by done. simpl.
        apply bool_decide_ext. rewrite elem_of_nil. tauto. }
    destruct (bool_decide _); by rewrite <- ?app_assoc.
Qed.

(** The messages of [validateRegexArray], in order. *)
Lemma validateRegexArray_closed (patterns : list jsstring) :
  validateRegexArray RegExp_compiles patterns
  = Normal
      {| allValid :=
           bool_decide
             (length (concat (imap (pattern_message RegExp_compiles) patterns)
                      ++ concat (imap (duplicate_message patterns) patterns))
              = 0%nat);
         errors :=
           concat (imap (pattern_message RegExp_compiles) patterns)
           ++ concat (imap (duplicate_message patterns) patterns) |}.
Proof.
  unfold validateRegexArray. rewrite check_patterns_closed.
  cbn [mbind completion_bind app]. rewrite check_duplicates_closed.
  rewrite (imap_ext (fun k p => if bool_decide _ then _ else _)
                    (duplicate_message patterns)).
  2:{ intros k p _. unfold duplicate_message, duplicates. simpl.
      erewrite bool_decide_ext; [done|]. rewrite elem_of_empty. tauto. }
  done.
Qed.

Lemma pattern_message_nil (i : nat) (p : jsstring) :
  pattern_message RegExp_compiles i p = []
  <-> trim p <> [] /\ RegExp_compiles p = true.
Proof.
  unfold pattern_message. rewrite blank_Some.
  case_bool_decide as Hb; [by split; [|intros [? _]]|].
  destruct (RegExp_compiles p); by split; [|intros [_ ?]].
Qed.

Lemma duplicate_message_nil (patterns : list jsstring) (i : nat) (p : jsstring) :
  duplicate_message patterns i p = [] <-> ~ duplicates (take i patterns) p.
Proof. unfold duplicate_message. by case_bool_decide. Qed.

(** Among visible patterns, no position repeats an earlier one exactly when
    the trimmed texts are pairwise different. *)
Lemma no_duplicates_NoDup (patterns : list jsstring) :
  Forall (fun p => trim p <> []) patterns ->
  (forall k p, patterns !! k = Some p -> ~ duplicates (take k patterns) p)
  <-> NoDup (trim <$> patterns).
Proof.
  intros Hvis. rewrite NoDup_prefixes. split.
  - intros H k x Hk Hin. apply list_lookup_fmap_Some in Hk as (p & -> & Hk).
    apply (H k p Hk). rewrite <- fmap_take in Hin. split; [|done].
    by apply (proj1 (Forall_lookup _ _) Hvis k p).
  - intros H k p Hk [_ Hin]. apply (H k (trim p)).
    + by rewrite list_lookup_fmap, Hk.
    + by rewrite <- fmap_take.
Qed.

Lemma messages_nil_iff (patterns : list jsstring) :
  concat (imap (pattern_message RegExp_compiles) patterns)
  ++ concat (imap (duplicate_message patterns) patterns) = []
  <-> valid_sequence RegExp_compiles patterns.
Proof.
  unfold valid_sequence.
  rewrite app_nil, !concat_imap_nil. split.
  - intros [H1 H2].
    assert (Forall (fun p => trim p <> [] /\ RegExp_compiles p = true) patterns)
      as Hall.
    { apply Forall_lookup. intros k p Hk. by apply (pattern_message_nil k), H1. }
    split; [done|]. apply no_duplicates_NoDup.
    + eapply Forall_impl; [exact Hall|]. by intros p [? _].
    + intros k p Hk. by apply duplicate_message_nil, H2.
  - intros [Hall Hnd]. split.
    + intros k p Hk. apply pattern_message_nil.
      by apply (proj1 (Forall_lookup _ _) Hall k p).
    + intros k p Hk. apply duplicate_message_nil.
      revert k p Hk. apply no_duplicates_NoDup; [|done].
      eapply Forall_impl; [exact Hall|]. by intros p [? _].
Qed.

(** The diagnostic of the first pass of [updatePatterns] for one pattern. *)
Lemma validatePattern_falsy (p : jsstring) (m : gmap nat jsstring) (i : nat) :
  (if negb (falsy (if blank (Some p) then Some (js "Pattern cannot be empty")
                   else if RegExp_compiles p then None
                   else Some (js "Invalid regex syntax")))
   then <[i := default [] (if blank (Some p)
                           then Some (js "Pattern cannot be empty")
                           else if RegExp_compiles p then None
                           else Some (js "Invalid regex syntax"))]> m
   else m)
  = match (if blank (Some p) then Some (js "Pattern cannot be empty")
           else if RegExp_compiles p then None
           else Some (js "Invalid regex syntax")) with
    | Some e => <[i := e]> m
    | None => m
    end.
Proof. destruct (blank (Some p)); [done|]. by destruct (RegExp_compiles p). Qed.

Lemma validate_from_lookup (patterns : list jsstring) :
  forall (i : nat) (m : gmap nat jsstring),
  exists m',
    Editor.validate_from RegExp_compiles i patterns m = Normal m' /\
    forall j,
      m' !! j =
      match (if decide (i <= j)%nat then patterns !! (j - i)%nat else None) with
      | Some p =>
        if blank (Some p) then Some (js "Pattern cannot be empty")
        else if RegExp_compiles p then m !! j
        else Some (js "Invalid regex syntax")
      | None => m !! j
      end.
Proof.
  induction patterns as [|p0 rest IH]; intros i m.
  - exists m. split; [done|]. intros j. by destruct (decide _).
  - cbn [Editor.validate_from]. rewrite validatePattern_normal.
    cbn [mbind completion_bind]. rewrite validatePattern_falsy.
    set (m1 := match _ with Some e => <[i := e]> m | None => m end).
    destruct (IH (S i) m1) as (m' & E & Hm).
    exists m'. split; [done|]. intros j. rewrite Hm.
    destruct (decide (i <= j)%nat) as [Hle|Hgt].
    + destruct (decide (S i <= j)%nat) as [Hle'|Heq].
      * replace (j - i)%nat with (S (j - S i)) by lia. simpl.
        assert (m1 !! j = m !! j) as ->; [|done].
        subst m1. repeat case_match; rewrite ?lookup_insert_ne by lia; done.
      * assert (j = i) as -> by lia. rewrite Nat.sub_diag. simpl.
        subst m1. destruct (blank (Some p0)); [by rewrite lookup_insert_eq|].
        destruct (RegExp_compiles p0); [done|]. by rewrite lookup_insert_eq.
    + rewrite decide_False by lia.
      subst m1. repeat case_match; rewrite ?lookup_insert_ne by lia; done.
Qed.

Lemma checkDuplicates_from_lookup (patterns : list jsstring) :
  forall (i : nat) (seen : gset jsstring) (m : gmap nat jsstring) (j : nat),
    Editor.checkDuplicates_from i patterns seen m !! j =
    match (if decide (i <= j)%nat then patterns !! (j - i)%nat else None) with
    | Some p =>
      if bool_decide (trim p <> [] /\
                      (trim p ∈ seen \/
                       trim p ∈ trim <$> take (j - i) patterns))
      then Some (js "Duplicate pattern") else m !! j
    | None => m !! j
    end.
Proof.
  induction patterns as [|p0 rest IH]; intros i seen m j.
  - simpl. by destruct (decide _).
  - cbn [Editor.checkDuplicates_from]. rewrite IH.
    set (m1 := if negb (falsy _) && _ then _ else m).
    destruct (decide (i <= j)%nat) as [Hle|Hgt].
    + destruct (decide (S i <= j)%nat) as [Hle'|Heq].
      * replace (j - i)%nat with (S (j - S i)) by lia. simpl.
        destruct (rest !! (j - S i)%nat) as [p|] eqn:Hp.
        -- assert (m1 !! j = m !! j) as ->.
           { subst m1. case_match; rewrite ?lookup_insert_ne by lia; done. }
           erewrite bool_decide_ext; [reflexivity|].
           rewrite elem_of_cons, elem_of_union, elem_of_singleton. tauto.
        -- subst m1. case_match; rewrite ?lookup_insert_ne by lia; done.
      * assert (j = i) as -> by lia. rewrite Nat.sub_diag. simpl.
        subst m1. unfold falsy.
        destruct (decide (trim p0 = [])) as [E|E].
        -- rewrite bool_decide_eq_true_2 by done. simpl.
           rewrite bool_decide_eq_false_2; [done|]. by intros [? _].
        -- rewrite bool_decide_eq_false_2 by done. simpl.
           destruct (decide (trim p0 ∈ seen)) as [Hin|Hin].
           ++ rewrite !bool_decide_eq_true_2; [|by auto|done].
              by rewrite lookup_insert_eq.
           ++ rewrite !bool_decide_eq_false_2; [done| |done].
              rewrite elem_of_nil. tauto.
    + rewrite decide_False by lia.
      subst m1. case_match; rewrite ?lookup_insert_ne by lia; done.
Qed.

(** [updatePatterns] returns: it leaves the edit state alone, calls the owner
    once with the new sequence, and recomputes every diagnostic from that
    sequence alone. *)
Lemma updatePatterns_closed (newPatterns : list jsstring) (c : Editor.Component) :
  exists c',
    Editor.updatePatterns RegExp_compiles newPatterns c = Normal c' /\
    Editor.editingIndex c' = Editor.editingIndex c /\
    Editor.editingValue c' = Editor.editingValue c /\
    Editor.notified c' = Editor.notified c ++ [newPatterns] /\
    forall j, Editor.errors c' !! j = diagnostic RegExp_compiles newPatterns j.
Proof.
  destruct (validate_from_lookup newPatterns 0 ∅) as (m' & E & Hm).
  unfold Editor.updatePatterns. rewrite E. cbn [mbind completion_bind].
  eexists. split; [done|]. cbn. repeat split; try done.
  intros j. unfold Editor.Object_assign, Editor.checkDuplicates.
  rewrite lookup_union, checkDuplicates_from_lookup, Hm.
  rewrite decide_True by lia. rewrite Nat.sub_0_r, !lookup_empty.
  unfold diagnostic.
  destruct (newPatterns !! j) as [p|]; [|done].
  erewrite (bool_decide_ext (_ /\ (_ \/ _)) (duplicates (take j newPatterns) p));
    [|unfold duplicates; rewrite elem_of_empty; tauto].
  case_bool_decide as Hd.
  - destruct (blank (Some p)); [done|]. by destruct (RegExp_compiles p).
  - destruct (blank (Some p)); [done|]. by destruct (RegExp_compiles p).
Qed.

Lemma diagnostic_None_iff (patterns : list jsstring) :
  (forall j, diagnostic RegExp_compiles patterns j = None)
  <-> valid_sequence RegExp_compiles patterns.
Proof.
  rewrite <- messages_nil_iff, app_nil, !concat_imap_nil. split.
  - intros H. split; intros k p Hk; specialize (H k);
      unfold diagnostic in H; rewrite Hk in H.
    + apply pattern_message_nil. case_bool_decide as Hd; [done|].
      rewrite blank_Some in H. case_bool_decide; [done|].
      split; [done|]. by destruct (RegExp_compiles p).
    + apply duplicate_message_nil. by case_bool_decide.
  - intros [H1 H2] j. unfold diagnostic.
    destruct (patterns !! j) as [p|] eqn:Hj; [|done].
    apply H1 in Hj as Hp. apply H2 in Hj as Hd.
    apply pattern_message_nil in Hp as [Hne Hrx].
    apply duplicate_message_nil in Hd.
    rewrite bool_decide_eq_false_2 by done.
    rewrite blank_Some, bool_decide_eq_false_2 by done. by rewrite Hrx.
Qed.

End ClosedForms.

(** * Further properties of the format model *)

Section FormatModelMore.
Import Host EnvUtils.

Variable RegExp_compiles : jsstring -> bool.

Local Arguments js : simpl never.

Lemma parse_trim (s : jsstring) :
  parseRegexValue RegExp_compiles (Some (trim s))
  = parseRegexValue RegExp_compiles (Some s).
Proof.
  destruct (blank (Some s)) eqn:Hb.
  - rewrite !parse_blank; by rewrite ?blank_trim.
  - destruct (json_array_text_dec (trim s)) as [(H1 & H2 & items & H3)|Hn].
    + rewrite (parse_array _ (trim s) items), (parse_array _ s items);
        by rewrite ?trim_idem.
    + rewrite !parse_string; by rewrite ?blank_trim, ?trim_idem.
Qed.

Lemma detect_trim (s : jsstring) :
  detectRegexFormat (Some (trim s)) = detectRegexFormat (Some s).
Proof.
  destruct (blank (Some s)) eqn:Hb.
  - rewrite !detect_blank; by rewrite ?blank_trim.
  - destruct (json_array_text_dec (trim s)) as [Ha|Hn].
    + rewrite !detect_array; by rewrite ?trim_idem.
    + rewrite !detect_string; by rewrite ?blank_trim, ?trim_idem.
Qed.

(** The shape of every result of [parseRegexValue]. *)
Lemma parse_shape (value : option jsstring) :
  exists r,
    parseRegexValue RegExp_compiles value = Normal r /\
    detectRegexFormat value = Normal (format r) /\
    raw r = trim (default [] value) /\
    (format r = FEmpty -> array r = [] /\ isValid r = true /\ error r = None) /\
    (format r = FString ->
     array r = [raw r] /\ isValid r = RegExp_compiles (raw r) /\
     error r = None) /\
    (format r = FArray -> isValid r = false -> array r = []) /\
    (is_Some (error r) <-> format r = FArray /\ isValid r = false).
Proof.
  destruct (blank value) eqn:Hb.
  - eexists. split; [by apply parse_blank|]. cbn.
    split; [by apply detect_blank|]. split.
    + apply blank_true_iff in Hb as [->|(s & -> & Hs)]; [done|].
      change (default [] (Some s)) with s. by rewrite Hs.
    + repeat split; try done; try (by intros [? ?]); try (by intros []).
  - apply blank_false_iff in Hb as (s & -> & Hs).
    assert (blank (Some s) = false) as Hb
      by (apply blank_false_iff; by exists s).
    destruct (json_array_text_dec (trim s)) as [Ha|Hn].
    + pose proof Ha as (H1 & H2 & items & H3).
      eexists. split; [by apply (parse_array _ s items)|].
      destruct (forallb typeof_string items); cbn;
        (split; [by apply detect_array|]);
        repeat split; try done; try (by intros [? ?]); try (by intros []).
    + eexists. split; [by apply parse_string|]. cbn.
      split; [by apply detect_string|].
      repeat split; try done; try (by intros [? ?]); try (by intros []).
Qed.

Lemma regexArrayToString_stringToRegexArray (value : jsstring) :
  regexArrayToString (stringToRegexArray value) = trim value.
Proof.
  unfold stringToRegexArray. rewrite blank_Some.
  case_bool_decide as Hb; [by rewrite Hb|done].
Qed.

Lemma map_JString_inj (p q : list jsstring) :
  map JString p = map JString q -> p = q.
Proof.
  revert q. induction p as [|x p IH]; intros [|y q] H; simplify_eq/=; [done|].
  f_equal. by apply IH.
Qed.

Lemma findMatchingPreset_None (pattern : jsstring)
    (presets : list (jsstring * jsstring)) :
  findMatchingPreset pattern presets = None
  <-> forall name, (name, pattern) ∉ presets.
Proof.
  induction presets as [|[n q] presets IH]; simpl.
  - split; [|done]. intros _ name. apply not_elem_of_nil.
  - case_bool_decide as Hq.
    + subst q. split; [done|]. intros H. exfalso. apply (H n). by left.
    + rewrite IH. split.
      * intros H name [E|Hin]%elem_of_cons; [by simplify_eq|by apply (H name)].
      * intros H name Hin. apply (H name). by right.
Qed.

Lemma first_match_elem_of (pattern name : jsstring)
    (presets : list (jsstring * jsstring)) :
  first_match pattern presets name -> (name, pattern) ∈ presets.
Proof.
  intros (before & after & -> & _). apply elem_of_app. right. by left.
Qed.

Lemma parse_string_patterns (s : jsstring)
    (r : ParsedRegexValue) :
  parseRegexValue RegExp_compiles (Some s) = Normal r ->
  format r <> FArray ->
  array r = stringToRegexArray s.
Proof.
  intros H Hf. unfold stringToRegexArray.
  destruct (blank (Some s)) eqn:Hb.
  - rewrite parse_blank in H by done. by simplify_eq.
  - destruct (json_array_text_dec (trim s)) as [(H1 & H2 & items & H3)|Hn].
    + rewrite (parse_array _ s items) in H by done.
      destruct (forallb typeof_string items); by simplify_eq.
    + rewrite parse_string in H by done. by simplify_eq.
Qed.

(** ** Validation *)

(** X1.  [validateRegexArray] returns, and reports [isValid: true] exactly
    when every pattern is visible and compiles and no two patterns have the
    same trimmed text. *)
Theorem validateRegexArray_valid_iff (patterns : list jsstring) :
  exists r,
    validateRegexArray RegExp_compiles patterns = Normal r /\
    (allValid r = true <-> valid_sequence RegExp_compiles patterns).
Proof.
  eexists. split; [apply validateRegexArray_closed|]. cbn [allValid].
  rewrite bool_decide_eq_true, length_zero_iff_nil. apply messages_nil_iff.
Qed.

(** X2.  The messages of [validateRegexArray] are, in order of position, the
    message of every blank or non-compiling pattern, and after them a
    duplicate message for every position whose non-empty trimmed text is the
    trimmed text of an earlier position.  There are at most twice as many
    messages as patterns. *)
Theorem validateRegexArray_messages (patterns : list jsstring) :
  exists r,
    validateRegexArray RegExp_compiles patterns = Normal r /\
    errors r
    = concat (imap (pattern_message RegExp_compiles) patterns)
      ++ concat (imap (duplicate_message patterns) patterns) /\
    (length (errors r) <= 2 * length patterns)%nat.
Proof.
  eexists. split; [apply validateRegexArray_closed|]. cbn [errors].
  split; [done|].
  assert (forall (f : nat -> jsstring -> list jsstring) (l : list jsstring),
            (forall k p, length (f k p) <= 1)%nat ->
            (length (concat (imap f l)) <= length l)%nat) as Hone.
  { intros f l. revert f. induction l as [|x l IH]; intros f Hf; [done|].
    cbn [imap concat]. rewrite length_app. cbn [length].
    specialize (IH (f ∘ S) (fun k p => Hf (S k) p)).
    specialize (Hf 0%nat x). lia. }
  rewrite length_app.
  pose proof (Hone (pattern_message RegExp_compiles) patterns) as H1.
  pose proof (Hone (duplicate_message patterns) patterns) as H2.
  assert (length (concat (imap (pattern_message RegExp_compiles) patterns))
          <= length patterns)%nat.
  { apply H1. intros k p. unfold pattern_message.
    destruct (blank (Some p)); [done|].
    destruct (RegExp_compiles p); simpl; lia. }
  assert (length (concat (imap (duplicate_message patterns) patterns))
          <= length patterns)%nat.
  { apply H2. intros k p. unfold duplicate_message.
    case_bool_decide; simpl; lia. }
  lia.
Qed.

(** ** Parsing *)

(** X3.  Every result of [parseRegexValue] has the format that
    [detectRegexFormat] gives the same input and the trimmed input as [raw];
    'empty' comes with no pattern, 'string' with [raw] as its only pattern,
    valid exactly when it compiles, and without error text; an invalid
    'array' result has no pattern; and the error field is present exactly for
    the invalid 'array' results. *)
Theorem parseRegexValue_shape (value : option jsstring) :
  exists r,
    parseRegexValue RegExp_compiles value = Normal r /\
    detectRegexFormat value = Normal (format r) /\
    raw r = trim (default [] value) /\
    (format r = FEmpty -> array r = [] /\ isValid r = true /\ error r = None) /\
    (format r = FString ->
     array r = [raw r] /\ isValid r = RegExp_compiles (raw r) /\
     error r = None) /\
    (format r = FArray -> isValid r = false -> array r = []) /\
    (is_Some (error r) <-> format r = FArray /\ isValid r = false).
Proof. apply parse_shape. Qed.

(** X4.  Detection and parsing look at the trimmed text only: trimming the
    input first changes neither result. *)
Theorem parse_detect_trim_invariant (s : jsstring) :
  detectRegexFormat (Some (trim s)) = detectRegexFormat (Some s) /\
  parseRegexValue RegExp_compiles (Some (trim s))
  = parseRegexValue RegExp_compiles (Some s).
Proof. split; [apply detect_trim|apply parse_trim]. Qed.

(** X5.  Parsing the [raw] text of a result gives that result again. *)
Theorem parse_raw_fixpoint (value : option jsstring) (r : ParsedRegexValue) :
  parseRegexValue RegExp_compiles value = Normal r ->
  parseRegexValue RegExp_compiles (Some (raw r)) = Normal r.
Proof.
  intros H. destruct (parse_shape value) as (r' & E & _ & Hraw & _).
  assert (r' = r) as -> by congruence. rewrite Hraw.
  destruct value as [s|]; simpl default.
  - by rewrite parse_trim.
  - by rewrite trim_nil.
Qed.

(** X6.  Unless the value is detected as 'array', the patterns that
    [parseRegexValue] returns are those of [stringToRegexArray]. *)
Theorem parse_agrees_with_stringToRegexArray (s : jsstring)
    (r : ParsedRegexValue) :
  parseRegexValue RegExp_compiles (Some s) = Normal r ->
  format r <> FArray ->
  array r = stringToRegexArray s.
Proof. apply parse_string_patterns. Qed.

(** ** Serialisation *)

(** X7.  Turning a single stored string into a list and serialising that
    list gives the trimmed string (the empty string for a blank one). *)
Theorem serialize_stringToRegexArray (value : jsstring) :
  regexArrayToString (stringToRegexArray value) = trim value.
Proof. apply regexArrayToString_stringToRegexArray. Qed.

(** X8.  Two lists of two or more patterns with the same serialised text
    are the same list. *)
Theorem regexArrayToString_injective (p q : list jsstring) :
  (2 <= length p)%nat -> (2 <= length q)%nat ->
  regexArrayToString p = regexArrayToString q -> p = q.
Proof.
  intros Hp Hq H.
  destruct p as [|x1 [|x2 p]]; [simpl in Hp; lia..|].
  destruct q as [|y1 [|y2 q]]; [simpl in Hq; lia..|].
  rewrite !regexArrayToString_many in H.
  apply map_JString_inj.
  pose proof (JSON_parse_stringify (x1 :: x2 :: p)) as E.
  rewrite H, JSON_parse_stringify in E. congruence.
Qed.

(** X9.  A one-pattern list is serialised as the bare pattern, so it reads
    back as format 'string' with that pattern, provided the pattern is
    already trimmed, not empty, and not itself a bracketed JSON list. *)
Theorem single_pattern_roundtrip (x : jsstring) :
  trim x = x -> x <> [] -> ~ json_array_text x ->
  parseRegexValue RegExp_compiles (Some (regexArrayToString [x]))
  = Normal {| format := FString; array := [x]; raw := x;
              isValid := RegExp_compiles x; error := None |}.
Proof.
  intros Ht Hne Hn. change (regexArrayToString [x]) with x.
  rewrite parse_string; rewrite ?Ht; try done.
  rewrite blank_Some, Ht. by apply bool_decide_eq_false_2.
Qed.

(** X10.  A one-pattern list whose pattern is the serialised text of a list
    of two or more patterns is stored as that text, and reads back as that
    longer list. *)
Theorem single_pattern_collision (p : list jsstring) :
  (2 <= length p)%nat ->
  regexArrayToString [regexArrayToString p] = regexArrayToString p /\
  parseRegexValue RegExp_compiles
    (Some (regexArrayToString [regexArrayToString p]))
  = Normal {| format := FArray; array := p; raw := regexArrayToString p;
              isValid := true; error := None |}.
Proof.
  intros Hp. split; [done|].
  change (regexArrayToString [regexArrayToString p])
    with (regexArrayToString p).
  destruct p as [|x1 [|x2 p]]; [simpl in Hp; lia..|].
  rewrite regexArrayToString_many. apply parse_stringify.
Qed.

(** ** Presets *)

(** X11.  [findMatchingPreset] returns null exactly when no preset has the
    pattern, and a name it returns is a name of the map with that pattern. *)
Theorem findMatchingPreset_found (pattern : jsstring)
    (presets : list (jsstring * jsstring)) :
  (findMatchingPreset pattern presets = None
   <-> forall name, (name, pattern) ∉ presets) /\
  (forall name, findMatchingPreset pattern presets = Some name ->
                (name, pattern) ∈ presets).
Proof.
  split; [apply findMatchingPreset_None|].
  intros name H. by apply first_match_elem_of, findMatchingPreset_first.
Qed.

(** X12.  [findMatchingPresets] returns exactly the non-empty names that are
    the first match of one of the patterns, and never more names than there
    are patterns: a pattern without a match, or matched by a preset with an
    empty name, contributes nothing. *)
Theorem findMatchingPresets_names (patterns : list jsstring)
    (presets : list (jsstring * jsstring)) :
  (forall name,
     name ∈ findMatchingPresets patterns presets
     <-> name <> [] /\
         exists p, p ∈ patterns /\ first_match p presets name) /\
  (length (findMatchingPresets patterns presets) <= length patterns)%nat.
Proof.
  unfold findMatchingPresets. split.
  - intros name. rewrite list_elem_of_In, filter_In, <- list_elem_of_In.
    rewrite list_elem_of_fmap. unfold falsy.
    rewrite negb_true_iff, bool_decide_eq_false. split.
    + intros [(p & E & Hp) Hne]. split; [done|]. exists p. split; [done|].
      apply findMatchingPreset_first.
      destruct (findMatchingPreset p presets) as [n|]; [|done].
      simpl in E. case_bool_decide; by simplify_eq.
    + intros [Hne (p & Hp & Hf)]. split; [|done]. exists p. split; [|done].
      apply findMatchingPreset_first in Hf. rewrite Hf. simpl.
      by rewrite bool_decide_eq_false_2.
  - etrans; [apply filter_length_le|]. by rewrite length_map.
Qed.

End FormatModelMore.

(** * Further properties of the editor *)

Section EditorMore.
Import Host EnvUtils.

Variable RegExp_compiles : jsstring -> bool.
Variable Object_prototype_has : jsstring -> bool.

Local Arguments js : simpl never.

(** [filter((_, i) => i !== index)] deletes position [index]. *)
Lemma filter_by_index_delete {A : Type} (index : nat) (a : list A) :
  forall k,
    Editor.filter_by_index (fun i => negb (Nat.eqb i index)) k a
    = if decide (k <= index)%nat then delete (index - k)%nat a else a.
Proof.
  induction a as [|x rest IH]; intros k.
  - simpl. by destruct (decide _).
  - cbn [Editor.filter_by_index]. rewrite IH.
    destruct (Nat.eqb_spec k index) as [->|Hne]; cbn [negb].
    + rewrite decide_False by lia. rewrite decide_True by lia.
      by rewrite Nat.sub_diag.
    + destruct (decide (k <= index)%nat).
      * rewrite decide_True by lia.
        replace (index - k)%nat with (S (index - S k)) by lia. done.
      * by rewrite decide_False by lia.
Qed.

Lemma list_delete_out_of_range {A : Type} (l : list A) (i : nat) :
  (length l <= i)%nat -> delete i l = l.
Proof.
  revert i. induction l as [|x l IH]; intros [|i] Hi;
    simpl in *; try done; try lia.
  f_equal. apply IH. lia.
Qed.

Lemma diagnostic_out_of_range (patterns : list jsstring) (j : nat) :
  (length patterns <= j)%nat -> diagnostic RegExp_compiles patterns j = None.
Proof.
  intros H. unfold diagnostic. by rewrite lookup_ge_None_2.
Qed.

(** The diagnostics of the old positions are not changed by an element
    added at the end. *)
Lemma diagnostic_app (patterns more : list jsstring) (j : nat) :
  (j < length patterns)%nat ->
  diagnostic RegExp_compiles (patterns ++ more) j
  = diagnostic RegExp_compiles patterns j.
Proof.
  intros H. unfold diagnostic.
  rewrite lookup_app_l by done. rewrite take_app_le by lia. done.
Qed.

Lemma diagnostic_blank (patterns : list jsstring) (j : nat) (p : jsstring) :
  patterns !! j = Some p -> trim p = [] ->
  diagnostic RegExp_compiles patterns j = Some (js "Pattern cannot be empty").
Proof.
  intros Hj Hp. unfold diagnostic. rewrite Hj.
  rewrite bool_decide_eq_false_2 by (by intros [? _]).
  by rewrite blank_Some, bool_decide_eq_true_2.
Qed.

(** ** Diagnostics *)

(** X13.  [updatePatterns] returns without throwing, leaves the edit state
    alone and calls the owner once with the new sequence.  The diagnostics it
    stores depend on the new sequence only: at each position 'Duplicate
    pattern' if the non-empty trimmed text occurs earlier, else 'Pattern
    cannot be empty' if blank, else 'Invalid regex syntax' if it does not
    compile, else nothing; and nothing beyond the end. *)
Theorem updatePatterns_diagnostics (newPatterns : list jsstring)
    (c : Editor.Component) :
  exists c',
    Editor.updatePatterns RegExp_compiles newPatterns c = Normal c' /\
    Editor.editingIndex c' = Editor.editingIndex c /\
    Editor.editingValue c' = Editor.editingValue c /\
    Editor.notified c' = Editor.notified c ++ [newPatterns] /\
    (forall j, Editor.errors c' !! j = diagnostic RegExp_compiles newPatterns j) /\
    (forall j, (length newPatterns <= j)%nat -> Editor.errors c' !! j = None).
Proof.
  destruct (updatePatterns_closed RegExp_compiles newPatterns c)
    as (c' & E & H1 & H2 & H3 & H4).
  exists c'. repeat split; try done.
  intros j Hj. rewrite H4. by apply diagnostic_out_of_range.
Qed.

(** X14.  The editor and [validateRegexArray] agree on validity: the editor
    stores no diagnostic at all exactly when [validateRegexArray] reports
    [isValid: true] for the same sequence. *)
Theorem editor_validator_agree (patterns : list jsstring) (c : Editor.Component) :
  exists c' r,
    Editor.updatePatterns RegExp_compiles patterns c = Normal c' /\
    validateRegexArray RegExp_compiles patterns = Normal r /\
    (Editor.errors c' = ∅ <-> allValid r = true).
Proof.
  destruct (updatePatterns_closed RegExp_compiles patterns c)
    as (c' & E & _ & _ & _ & H).
  exists c'. eexists. split; [done|].
  split; [apply validateRegexArray_closed|]. cbn [allValid].
  rewrite bool_decide_eq_true, length_zero_iff_nil, messages_nil_iff.
  rewrite <- diagnostic_None_iff, map_empty.
  split; intros Hm j; [by rewrite <- H|by rewrite H].
Qed.

(** ** The handlers that change the sequence *)

(** X15.  [handleRemove] calls the owner once with the sequence without
    position [index]; with [index] out of range that is the unchanged
    sequence, and the owner is called all the same.  Diagnostics are those of
    the new sequence; the edit state is left as it was. *)
Theorem handleRemove_deletes (patterns : list jsstring) (index : nat)
    (c : Editor.Component) :
  exists c',
    Editor.handleRemove RegExp_compiles patterns index c = Normal c' /\
    Editor.notified c' = Editor.notified c ++ [delete index patterns] /\
    Editor.editingIndex c' = Editor.editingIndex c /\
    Editor.editingValue c' = Editor.editingValue c /\
    (forall j, Editor.errors c' !! j
               = diagnostic RegExp_compiles (delete index patterns) j) /\
    (forall p, patterns !! index = Some p ->
               S (length (delete index patterns)) = length patterns) /\
    (patterns !! index = None -> delete index patterns = patterns).
Proof.
  unfold Editor.handleRemove. rewrite filter_by_index_delete.
  rewrite decide_True by lia. rewrite Nat.sub_0_r.
  destruct (updatePatterns_closed RegExp_compiles (delete index patterns) c)
    as (c' & E & H1 & H2 & H3 & H4).
  exists c'. repeat split; try done.
  - intros p Hp. rewrite length_delete by done.
    apply lookup_lt_Some in Hp. lia.
  - intros Hn. apply list_delete_out_of_range. by apply lookup_ge_None.
Qed.

(** X16.  [handleAdd] calls the owner once with the sequence extended by an
    empty pattern and opens that new last position for editing, with an
    empty working text.  The new position is flagged 'Pattern cannot be
    empty'; the diagnostics of the old positions are those of the old
    sequence. *)
Theorem handleAdd_appends (patterns : list jsstring) (c : Editor.Component) :
  exists c',
    Editor.handleAdd RegExp_compiles patterns c = Normal c' /\
    Editor.notified c' = Editor.notified c ++ [patterns ++ [[]]] /\
    Editor.editingIndex c' = Some (length patterns) /\
    Editor.editingValue c' = [] /\
    Editor.errors c' !! length patterns = Some (js "Pattern cannot be empty") /\
    (forall j, (j < length patterns)%nat ->
               Editor.errors c' !! j = diagnostic RegExp_compiles patterns j).
Proof.
  unfold Editor.handleAdd.
  destruct (updatePatterns_closed RegExp_compiles (patterns ++ [[]]) c)
    as (c' & E & H1 & H2 & H3 & H4).
  rewrite E. cbn [mbind completion_bind mret completion_ret].
  eexists. split; [done|]. cbn. repeat split; try done.
  - rewrite H4. apply (diagnostic_blank _ _ []); [|done].
    by rewrite lookup_app_r, Nat.sub_diag.
  - intros j Hj. rewrite H4. by apply diagnostic_app.
Qed.

(** X17.  [handleSaveEdit] does nothing when no position is being edited.
    When position [i] is, and [i] is inside the sequence, it calls the owner
    once with the sequence in which only position [i] is replaced by the
    working text, and returns to the idle state with an empty working text;
    when [i] is the length of the sequence, the working text is appended
    instead. *)
Theorem handleSaveEdit_commits (patterns : list jsstring) (c : Editor.Component) :
  (Editor.editingIndex c = None ->
   Editor.handleSaveEdit RegExp_compiles patterns c = Some (Normal c)) /\
  (forall i, Editor.editingIndex c = Some i -> (i <= length patterns)%nat ->
     exists c',
       Editor.handleSaveEdit RegExp_compiles patterns c = Some (Normal c') /\
       Editor.notified c'
       = Editor.notified c
         ++ [if decide (i < length patterns)%nat
             then <[i := Editor.editingValue c]> patterns
             else patterns ++ [Editor.editingValue c]] /\
       Editor.editingIndex c' = None /\
       Editor.editingValue c' = [] /\
       (forall j, Editor.errors c' !! j
                  = diagnostic RegExp_compiles
                      (if decide (i < length patterns)%nat
                       then <[i := Editor.editingValue c]> patterns
                       else patterns ++ [Editor.editingValue c]) j)).
Proof.
  split.
  - intros H. unfold Editor.handleSaveEdit. by rewrite H.
  - intros i Hi Hle. unfold Editor.handleSaveEdit, Editor.assigned.
    rewrite Hi.
    destruct (decide (i < length patterns)%nat) as [Hlt|Hge].
    + rewrite bool_decide_eq_true_2 by done.
      destruct (updatePatterns_closed RegExp_compiles
                  (<[i := Editor.editingValue c]> patterns) c)
        as (c' & E & H1 & H2 & H3 & H4).
      rewrite E. eexists. split; [done|]. by cbn.
    + rewrite bool_decide_eq_false_2 by done.
      rewrite bool_decide_eq_true_2 by lia.
      destruct (updatePatterns_closed RegExp_compiles
                  (patterns ++ [Editor.editingValue c]) c)
        as (c' & E & H1 & H2 & H3 & H4).
      rewrite E. eexists. split; [done|]. by cbn.
Qed.

(** X18.  Opening a position of the sequence and saving at once calls the
    owner once with the unchanged sequence; opening it and cancelling calls
    nobody and keeps the diagnostics.  Both end in the idle state. *)
Theorem edit_then_save_or_cancel (patterns : list jsstring) (i : nat)
    (p : jsstring) (c : Editor.Component) :
  patterns !! i = Some p ->
  exists opened saved cancelled,
    Editor.handleEdit patterns i c = Normal opened /\
    Editor.editingIndex opened = Some i /\
    Editor.editingValue opened = p /\
    Editor.handleSaveEdit RegExp_compiles patterns opened = Some (Normal saved) /\
    Editor.notified saved = Editor.notified c ++ [patterns] /\
    Editor.editingIndex saved = None /\
    Editor.handleCancelEdit opened = Normal cancelled /\
    Editor.notified cancelled = Editor.notified c /\
    Editor.errors cancelled = Editor.errors c /\
    Editor.editingIndex cancelled = None.
Proof.
  intros Hp. pose proof (lookup_lt_Some _ _ _ Hp) as Hlt.
  assert ((if falsy (patterns !! i) then [] else default [] (patterns !! i)) = p)
    as Hv.
  { rewrite Hp. unfold falsy. case_bool_decide; by simplify_eq/=. }
  set (opened := {| Editor.editingIndex := Some i; Editor.editingValue := p;
                    Editor.errors := Editor.errors c;
                    Editor.notified := Editor.notified c |}).
  destruct (updatePatterns_closed RegExp_compiles patterns opened)
    as (c' & E & H1 & H2 & H3 & H4).
  exists opened. eexists. eexists.
  unfold Editor.handleEdit, Editor.handleCancelEdit. rewrite Hv.
  split; [done|]. split; [done|]. split; [done|].
  unfold Editor.handleSaveEdit, Editor.assigned.
  cbn [opened Editor.editingIndex Editor.editingValue].
  rewrite bool_decide_eq_true_2 by done. rewrite list_insert_id by done.
  fold opened. rewrite E. cbn [mbind completion_bind mret completion_ret].
  split; [done|]. cbn [Editor.notified Editor.editingIndex Editor.errors].
  by rewrite H3.
Qed.

(** X19.  With a preset of that name whose pattern is not empty,
    [handleInsertPreset] calls the owner once with the sequence that has the
    pattern inserted right after position [afterIndex] (at the end when
    [afterIndex] is beyond it): one longer, the positions up to [afterIndex]
    unchanged and the later ones moved up by one.  With a preset whose
    pattern is empty it changes nothing and calls nobody. *)
Theorem handleInsertPreset_splices (presets : list (jsstring * jsstring))
    (patterns : list jsstring) (presetName : jsstring) (afterIndex : nat)
    (c : Editor.Component) :
  (forall v, Editor.own_property presets presetName = Some v -> v <> [] ->
     exists c' newPatterns,
       Editor.handleInsertPreset RegExp_compiles Object_prototype_has presets
         patterns presetName afterIndex c = Normal c' /\
       Editor.notified c' = Editor.notified c ++ [newPatterns] /\
       length newPatterns = S (length patterns) /\
       (forall j, (j <= afterIndex)%nat -> (j < length patterns)%nat ->
                  newPatterns !! j = patterns !! j) /\
       newPatterns !! (S afterIndex `min` length patterns)%nat = Some v /\
       (forall j, (afterIndex < j)%nat ->
                  newPatterns !! S j = patterns !! j)) /\
  (Editor.own_property presets presetName = Some [] ->
   Editor.handleInsertPreset RegExp_compiles Object_prototype_has presets
     patterns presetName afterIndex c = Normal c).
Proof.
  unfold Editor.handleInsertPreset, Editor.get_property. split.
  - intros v Hv Hne. rewrite Hv. unfold falsy.
    rewrite bool_decide_eq_false_2 by done.
    replace (afterIndex + 1)%nat with (S afterIndex) by lia.
    set (newPatterns := take (S afterIndex) patterns ++ [v]
                        ++ drop (S afterIndex) patterns).
    destruct (updatePatterns_closed RegExp_compiles newPatterns c)
      as (c' & E & H1 & H2 & H3 & H4).
    exists c', newPatterns. split; [done|]. split; [done|].
    pose proof (length_take patterns (S afterIndex)) as Htk.
    subst newPatterns. split; [|split; [|split]].
    + rewrite !length_app, length_take, length_drop. cbn [length]. lia.
    + intros j Hj Hlt. rewrite lookup_app_l by (rewrite Htk; lia).
      apply lookup_take_lt. lia.
    + rewrite lookup_app_r by (rewrite Htk; lia).
      by rewrite Htk, Nat.sub_diag.
    + intros j Hj.
      destruct (decide (j < length patterns)%nat) as [Hlt|Hge].
      * rewrite lookup_app_r by (rewrite Htk; lia).
        rewrite Htk.
        replace (S j - S afterIndex `min` length patterns)%nat
          with (S (j - S afterIndex)) by lia.
        simpl. rewrite lookup_drop. f_equal. lia.
      * rewrite (lookup_ge_None_2 patterns j) by lia.
        apply lookup_ge_None_2.
        rewrite !length_app, length_take, length_drop. cbn [length]. lia.
  - intros Hv. by rewrite Hv.
Qed.

(** X20.  With a preset of that name whose pattern is not empty,
    [handleApplyPreset] without a position calls the owner once with the
    one-pattern sequence of that pattern, and stores no diagnostic beyond
    position 0; with a position inside the sequence it calls the owner once
    with the sequence in which only that position is replaced.  With a
    preset whose pattern is empty it changes nothing and calls nobody. *)
Theorem handleApplyPreset_replaces (presets : list (jsstring * jsstring))
    (patterns : list jsstring) (presetName : jsstring) (c : Editor.Component) :
  (forall v, Editor.own_property presets presetName = Some v -> v <> [] ->
     (exists c',
        Editor.handleApplyPreset RegExp_compiles Object_prototype_has presets
          patterns presetName None c = Some (Normal c') /\
        Editor.notified c' = Editor.notified c ++ [[v]] /\
        (forall j, (1 <= j)%nat -> Editor.errors c' !! j = None)) /\
     (forall i, (i < length patterns)%nat ->
        exists c',
          Editor.handleApplyPreset RegExp_compiles Object_prototype_has presets
            patterns presetName (Some i) c = Some (Normal c') /\
          Editor.notified c' = Editor.notified c ++ [<[i := v]> patterns])) /\
  (forall index, Editor.own_property presets presetName = Some [] ->
     Editor.handleApplyPreset RegExp_compiles Object_prototype_has presets
       patterns presetName index c = Some (Normal c)).
Proof.
  unfold Editor.handleApplyPreset, Editor.get_property. split.
  - intros v Hv Hne. rewrite Hv. unfold falsy.
    rewrite bool_decide_eq_false_2 by done. split.
    + destruct (updatePatterns_closed RegExp_compiles [v] c)
        as (c' & E & H1 & H2 & H3 & H4).
      exists c'. rewrite E. repeat split; try done.
      intros j Hj. rewrite H4. by apply diagnostic_out_of_range.
    + intros i Hi. unfold Editor.assigned.
      rewrite bool_decide_eq_true_2 by done.
      destruct (updatePatterns_closed RegExp_compiles (<[i := v]> patterns) c)
        as (c' & E & H1 & H2 & H3 & H4).
      exists c'. by rewrite E.
  - intros index Hv. by rewrite Hv.
Qed.

(** ** Reordering *)

(** X21.  Moving a pattern down and, once the owner has taken the new
    sequence, moving it up again from its new position gives the original
    sequence back: the owner is called twice, the second time with the
    sequence the editor started from. *)
Theorem move_down_then_up (patterns : list jsstring) (i : nat) (x y : jsstring)
    (c : Editor.Component) :
  patterns !! i = Some x -> patterns !! S i = Some y ->
  exists moved restored newPatterns,
    Editor.handleMoveDown RegExp_compiles patterns i c = Normal moved /\
    Editor.notified moved = Editor.notified c ++ [newPatterns] /\
    Editor.setRegexArray patterns [newPatterns] = newPatterns /\
    Editor.handleMoveUp RegExp_compiles newPatterns (S i) moved
    = Normal restored /\
    Editor.notified restored = Editor.notified c ++ [newPatterns; patterns].
Proof.
  intros Hx Hy. pose proof (lookup_lt_Some _ _ _ Hy) as Hlen.
  set (newPatterns := <[S i := x]> (<[i := y]> patterns)).
  assert (newPatterns !! i = Some y) as Hi'.
  { subst newPatterns. rewrite list_lookup_insert_ne by lia.
    apply list_lookup_insert_eq. lia. }
  assert (newPatterns !! S i = Some x) as HSi'.
  { subst newPatterns. apply list_lookup_insert_eq.
    rewrite length_insert. lia. }
  assert (<[i := x]> (<[S i := y]> newPatterns) = patterns) as Hback.
  { subst newPatterns.
    rewrite list_insert_insert_eq.
    rewrite (list_insert_insert_ne _ i (S i)) by lia.
    rewrite list_insert_insert_eq.
    rewrite (list_insert_id patterns i x) by done.
    by rewrite list_insert_id. }
  destruct (updatePatterns_closed RegExp_compiles newPatterns c)
    as (moved & E & _ & _ & Hn & _).
  destruct (updatePatterns_closed RegExp_compiles patterns moved)
    as (restored & E' & _ & _ & Hn' & _).
  exists moved, restored, newPatterns.
  split; [|split; [done|split; [done|split]]].
  - unfold Editor.handleMoveDown, Editor.swapped.
    rewrite bool_decide_eq_true_2 by lia.
    replace (i + 1)%nat with (S i) by lia.
    rewrite Hx, Hy. exact E.
  - unfold Editor.handleMoveUp, Editor.swapped.
    rewrite bool_decide_eq_true_2 by lia.
    replace (S i - 1)%nat with i by lia.
    rewrite Hi', HSi'. cbn [mbind completion_bind mret completion_ret].
    by rewrite Hback.
  - by rewrite Hn', Hn, <- app_assoc.
Qed.

(** X22.  Whatever the position, a move handler that returns has either
    called nobody or called the owner once with a rearrangement of the
    sequence: reordering never drops, adds or changes a pattern. *)
Theorem moves_rearrange (patterns : list jsstring) (index : nat)
    (c c' : Editor.Component) :
  Editor.handleMoveUp RegExp_compiles patterns index c = Normal c' \/
  Editor.handleMoveDown RegExp_compiles patterns index c = Normal c' ->
  Editor.notified c' = Editor.notified c \/
  exists newPatterns,
    Editor.notified c' = Editor.notified c ++ [newPatterns] /\
    newPatterns ≡ₚ patterns.
Proof.
  assert (forall i j, Editor.swapped patterns i j ≫=
                        (fun newPatterns =>
                           Editor.updatePatterns RegExp_compiles newPatterns c)
                      = Normal c' ->
            exists newPatterns,
              Editor.notified c' = Editor.notified c ++ [newPatterns] /\
              newPatterns ≡ₚ patterns) as Hswap.
  { intros i j H. unfold Editor.swapped in H.
    destruct (patterns !! j) as [at_j|] eqn:Hj; [|done].
    destruct (patterns !! i) as [at_i|] eqn:Hi; [|done].
    cbn [mbind completion_bind mret completion_ret] in H.
    destruct (updatePatterns_closed RegExp_compiles
                (<[j:=at_i]> (<[i:=at_j]> patterns)) c)
      as (c'' & E & _ & _ & Hn & _).
    rewrite E in H. injection H as <-.
    eexists. split; [done|]. by apply Permutation_insert_swap. }
  unfold Editor.handleMoveUp, Editor.handleMoveDown.
  intros [H|H]; case_bool_decide.
  1,3: right; by eapply Hswap.
  all: left; cbv [mret completion_ret] in H; by simplify_eq.
Qed.

End EditorMore.

(** * Properties of the settings form *)

Section EnvConfigMore.
Import Host EnvUtils.

Variable RegExp_compiles : jsstring -> bool.

Local Arguments js : simpl never.

Lemma fetchEnvVars_blank (data : gmap jsstring jsstring) :
  blank (data !! EnvConfig.TORRENT_FILTER_REGEX) = true ->
  EnvConfig.fetchEnvVars RegExp_compiles data
  = Normal {| EnvConfig.envVars := data; EnvConfig.regexFormat := FArray;
              EnvConfig.regexArray := getDefaultRegexPatterns |}.
Proof.
  intros Hb. unfold EnvConfig.fetchEnvVars. by rewrite parse_blank.
Qed.

Lemma fetchEnvVars_parsed (data : gmap jsstring jsstring) (r : ParsedRegexValue) :
  parseRegexValue RegExp_compiles (data !! EnvConfig.TORRENT_FILTER_REGEX)
  = Normal r ->
  format r <> FEmpty ->
  EnvConfig.fetchEnvVars RegExp_compiles data
  = Normal {| EnvConfig.envVars := data; EnvConfig.regexFormat := format r;
              EnvConfig.regexArray := array r |}.
Proof.
  intros E Hf. unfold EnvConfig.fetchEnvVars. rewrite E.
  cbn [mbind completion_bind]. by rewrite bool_decide_eq_false_2.
Qed.

Lemma find_pattern_Some (value : jsstring)
    (regexPresets : list EnvConfig.RegexPreset) (preset : EnvConfig.RegexPreset) :
  EnvConfig.find_pattern value regexPresets = Some preset ->
  preset ∈ regexPresets /\ EnvConfig.pattern preset = value.
Proof.
  induction regexPresets as [|q rest IH]; [done|]. simpl.
  case_bool_decide as Hq.
  - intros [= ->]. split; [by left|done].
  - intros H. destruct (IH H) as [Hin Hp]. split; [by right|done].
Qed.

(** X23.  In 'array' format with two or more patterns, loading what
    [handleSubmit] posts gives the same patterns in 'array' format again. *)
Theorem save_then_load (st : EnvConfig.State) :
  EnvConfig.regexFormat st = FArray ->
  (2 <= length (EnvConfig.regexArray st))%nat ->
  EnvConfig.fetchEnvVars RegExp_compiles (EnvConfig.dataToSend st)
  = Normal {| EnvConfig.envVars := EnvConfig.dataToSend st;
              EnvConfig.regexFormat := FArray;
              EnvConfig.regexArray := EnvConfig.regexArray st |}.
Proof.
  intros Hf Hlen.
  assert (EnvConfig.dataToSend st !! EnvConfig.TORRENT_FILTER_REGEX
          = Some (JSON_stringify (EnvConfig.regexArray st))) as Hk.
  { unfold EnvConfig.dataToSend. rewrite bool_decide_eq_true_2 by done.
    rewrite lookup_insert_eq.
    by destruct (EnvConfig.regexArray st) as [|x [|y rest]];
      [simpl in Hlen; lia..|]. }
  erewrite fetchEnvVars_parsed;
    [|rewrite Hk; apply parse_stringify|done]. done.
Qed.

Lemma detect_not_blank (value : option jsstring) :
  blank value = false -> detectRegexFormat value <> Normal FEmpty.
Proof.
  intros Hb. pose proof Hb as Hb'.
  apply blank_false_iff in Hb' as (s & -> & _).
  destruct (json_array_text_dec (trim s)) as [Ha|Hn].
  - by rewrite detect_array.
  - by rewrite detect_string.
Qed.

Lemma fetchEnvVars_cases (data : gmap jsstring jsstring) :
  exists st,
    EnvConfig.fetchEnvVars RegExp_compiles data = Normal st /\
    EnvConfig.envVars st = data /\
    EnvConfig.regexFormat st <> FEmpty /\
    (blank (data !! EnvConfig.TORRENT_FILTER_REGEX) = true ->
     EnvConfig.regexFormat st = FArray /\
     EnvConfig.regexArray st = getDefaultRegexPatterns) /\
    (blank (data !! EnvConfig.TORRENT_FILTER_REGEX) = false ->
     exists r,
       parseRegexValue RegExp_compiles (data !! EnvConfig.TORRENT_FILTER_REGEX)
       = Normal r /\
       EnvConfig.regexFormat st = format r /\
       EnvConfig.regexArray st = array r).
Proof.
  destruct (blank (data !! EnvConfig.TORRENT_FILTER_REGEX)) eqn:Hb.
  - eexists. split; [by apply fetchEnvVars_blank|]. by cbn.
  - destruct (parse_shape RegExp_compiles
                (data !! EnvConfig.TORRENT_FILTER_REGEX))
      as (r & E & Hd & _).
    assert (format r <> FEmpty) as Hne.
    { intros Hf. rewrite Hf in Hd. by apply detect_not_blank in Hd. }
    eexists. split; [by apply fetchEnvVars_parsed|]. cbn.
    repeat split; try done. intros _. by exists r.
Qed.

(** X24.  A load never leaves the format 'empty': for a missing or blank
    stored value it sets the three default patterns in 'array' format, and
    for any other value the format and the patterns that [parseRegexValue]
    returns. *)
Theorem fetchEnvVars_result (data : gmap jsstring jsstring) :
  exists st,
    EnvConfig.fetchEnvVars RegExp_compiles data = Normal st /\
    EnvConfig.envVars st = data /\
    EnvConfig.regexFormat st <> FEmpty /\
    (blank (data !! EnvConfig.TORRENT_FILTER_REGEX) = true ->
     EnvConfig.regexFormat st = FArray /\
     EnvConfig.regexArray st = getDefaultRegexPatterns) /\
    (blank (data !! EnvConfig.TORRENT_FILTER_REGEX) = false ->
     exists r,
       parseRegexValue RegExp_compiles (data !! EnvConfig.TORRENT_FILTER_REGEX)
       = Normal r /\
       EnvConfig.regexFormat st = format r /\
       EnvConfig.regexArray st = array r).
Proof. apply fetchEnvVars_cases. Qed.


(** X26.  A stored JSON array with an element that is not a string is loaded
    as an empty list in 'array' format, and a save without any edit then
    replaces the stored value by the empty string; the other variables are
    sent back as they were loaded. *)
Theorem load_malformed_then_save (data : gmap jsstring jsstring)
    (s : jsstring) (items : list json) :
  data !! EnvConfig.TORRENT_FILTER_REGEX = Some s ->
  bracket_looking (trim s) ->
  JSON_parse (trim s) = Normal (JArray items) ->
  forallb typeof_string items = false ->
  exists st,
    EnvConfig.fetchEnvVars RegExp_compiles data = Normal st /\
    EnvConfig.regexFormat st = FArray /\
    EnvConfig.regexArray st = [] /\
    EnvConfig.dataToSend st !! EnvConfig.TORRENT_FILTER_REGEX = Some [] /\
    (forall k, k <> EnvConfig.TORRENT_FILTER_REGEX ->
               EnvConfig.dataToSend st !! k = data !! k).
Proof.
  intros Hk [H1 H2] Hp Hs.
  eexists. split.
  { eapply fetchEnvVars_parsed.
    - rewrite Hk. by apply (parse_array _ s items).
    - by rewrite Hs. }
  rewrite Hs. cbn. unfold EnvConfig.dataToSend. cbn.
  rewrite bool_decide_eq_true_2 by done.
  repeat split; try done.
  - by rewrite lookup_insert_eq.
  - intros k Hne. by rewrite lookup_insert_ne.
Qed.

(** X27.  Whatever the format, after [applyRegexPreset] a save stores
    exactly the preset's pattern under the regex key. *)
Theorem applyRegexPreset_then_save (pattern : jsstring) (st : EnvConfig.State) :
  EnvConfig.dataToSend (EnvConfig.applyRegexPreset pattern st)
    !! EnvConfig.TORRENT_FILTER_REGEX = Some pattern.
Proof.
  unfold EnvConfig.applyRegexPreset, EnvConfig.handleInputChange.
  destruct (decide (EnvConfig.regexFormat st = FArray)) as [Hf|Hf].
  - rewrite bool_decide_eq_true_2 by done. unfold EnvConfig.dataToSend. cbn.
    rewrite bool_decide_eq_true_2 by done. by rewrite lookup_insert_eq.
  - rewrite bool_decide_eq_false_2 by done. unfold EnvConfig.dataToSend. cbn.
    rewrite bool_decide_eq_false_2 by done. by rewrite lookup_insert_eq.
Qed.

(** X28.  'Convert to Priority List' switches to 'array' format with the
    trimmed stored text as the only pattern (no pattern if it is missing or
    blank), so that a save stores the trimmed text; after a load in 'string'
    format the conversion keeps the loaded patterns. *)
Theorem convertToPriorityList_then_save (st : EnvConfig.State) :
  EnvConfig.regexFormat (EnvConfig.convertToPriorityList st) = FArray /\
  EnvConfig.dataToSend (EnvConfig.convertToPriorityList st)
    !! EnvConfig.TORRENT_FILTER_REGEX
  = Some (trim (default [] (EnvConfig.envVars st
                              !! EnvConfig.TORRENT_FILTER_REGEX))) /\
  (forall data, EnvConfig.fetchEnvVars RegExp_compiles data = Normal st ->
                EnvConfig.regexFormat st = FString ->
                EnvConfig.regexArray (EnvConfig.convertToPriorityList st)
                = EnvConfig.regexArray st).
Proof.
  assert ((if falsy (EnvConfig.envVars st !! EnvConfig.TORRENT_FILTER_REGEX)
           then []
           else default [] (EnvConfig.envVars st
                              !! EnvConfig.TORRENT_FILTER_REGEX))
          = default [] (EnvConfig.envVars st !! EnvConfig.TORRENT_FILTER_REGEX))
    as Hcur.
  { destruct (EnvConfig.envVars st !! EnvConfig.TORRENT_FILTER_REGEX) as [v|];
      [|done]. unfold falsy. by case_bool_decide. }
  split; [done|]. split.
  - unfold EnvConfig.dataToSend, EnvConfig.convertToPriorityList. cbn.
    rewrite bool_decide_eq_true_2 by done.
    rewrite lookup_insert_eq, Hcur.
    by rewrite regexArrayToString_stringToRegexArray.
  - intros data Hload Hs.
    unfold EnvConfig.convertToPriorityList. cbn. rewrite Hcur.
    destruct (fetchEnvVars_cases data) as (st' & E & Henv & _ & Hblank & Hparse).
    assert (st' = st) as -> by congruence.
    destruct (blank (data !! EnvConfig.TORRENT_FILTER_REGEX)) eqn:Hb.
    + destruct (Hblank eq_refl) as [Hf _]. congruence.
    + destruct (Hparse eq_refl) as (r & Er & Hfr & Har).
      rewrite Henv, Har.
      apply blank_false_iff in Hb as (s & Hk & _). rewrite Hk in Er |- *.
      symmetry. eapply parse_string_patterns; [exact Er|].
      congruence.
Qed.

(** X29.  When [getCurrentPresetName] shows a name, it is the name of one of
    the presets, and the pattern of that preset is exactly the text a save
    would store under the regex key. *)
Theorem getCurrentPresetName_matches_saved
    (regexPresets : list EnvConfig.RegexPreset) (st : EnvConfig.State)
    (shown : jsstring) :
  EnvConfig.getCurrentPresetName regexPresets st = Some shown ->
  exists preset,
    preset ∈ regexPresets /\ EnvConfig.name preset = shown /\
    EnvConfig.dataToSend st !! EnvConfig.TORRENT_FILTER_REGEX
    = Some (EnvConfig.pattern preset).
Proof.
  unfold EnvConfig.getCurrentPresetName, EnvConfig.dataToSend.
  case_bool_decide as Hf.
  - case_bool_decide as Hlen; [|done].
    destruct (EnvConfig.regexArray st) as [|x [|y rest]] eqn:Ha; try done.
    cbn. intros H.
    destruct (EnvConfig.find_pattern x regexPresets) as [preset|] eqn:Hfind;
      [|done].
    apply find_pattern_Some in Hfind as [Hin Hp].
    exists preset. cbn in H. simplify_eq. split; [done|]. split; [done|].
    by rewrite lookup_insert_eq.
  - destruct (EnvConfig.envVars st !! EnvConfig.TORRENT_FILTER_REGEX)
      as [v|] eqn:Hk; [|done].
    unfold falsy. case_bool_decide as Hv; [done|]. cbn. intros H.
    destruct (EnvConfig.find_pattern v regexPresets) as [preset|] eqn:Hfind;
      [|done].
    apply find_pattern_Some in Hfind as [Hin Hp].
    exists preset. cbn in H. simplify_eq. done.
Qed.

End EnvConfigMore.

(** * The further statements at concrete inputs *)

Section MoreInstances.
Import Host EnvUtils.

Lemma parseRegexValue_shape_witness :
  exists r,
    parseRegexValue balanced_brackets (Some (js " a ")) = Normal r /\
    format r = FString /\
    array r = [raw r] /\ isValid r = balanced_brackets (raw r) /\
    error r = None.
Proof.
  destruct (parseRegexValue_shape balanced_brackets (Some (js " a ")))
    as (r & E & _ & _ & _ & Hs & _).
  exists r. split; [exact E|].
  assert (format r = FString) as Hf
    by (vm_compute in E; injection E as <-; reflexivity).
  split; [exact Hf|]. exact (Hs Hf).
Defined.

Lemma parse_raw_fixpoint_witness :
  parseRegexValue balanced_brackets (Some (js " [x] "))
  = Normal {| format := FString; array := [js "[x]"]; raw := js "[x]";
              isValid := true; error := None |} /\
  parseRegexValue balanced_brackets (Some (js "[x]"))
  = Normal {| format := FString; array := [js "[x]"]; raw := js "[x]";
              isValid := true; error := None |}.
Proof.
  assert (parseRegexValue balanced_brackets (Some (js " [x] "))
          = Normal {| format := FString; array := [js "[x]"]; raw := js "[x]";
                      isValid := true; error := None |}) as H by reflexivity.
  split; [exact H|].
  exact (parse_raw_fixpoint balanced_brackets _ _ H).
Defined.

Lemma parse_agrees_with_stringToRegexArray_witness :
  parseRegexValue balanced_brackets (Some (js " a "))
  = Normal {| format := FString; array := [js "a"]; raw := js "a";
              isValid := true; error := None |} /\
  [js "a"] = stringToRegexArray (js " a ").
Proof.
  assert (parseRegexValue balanced_brackets (Some (js " a "))
          = Normal {| format := FString; array := [js "a"]; raw := js "a";
                      isValid := true; error := None |}) as H by reflexivity.
  split; [exact H|].
  apply (parse_agrees_with_stringToRegexArray balanced_brackets _ _ H).
  simpl. discriminate.
Defined.

Lemma regexArrayToString_injective_witness :
  (2 <= length [js "a"; js "b"])%nat /\
  regexArrayToString [js "a"; js "b"] = regexArrayToString [js "a"; js "b"] /\
  [js "a"; js "b"] = [js "a"; js "b"].
Proof.
  assert (2 <= length [js "a"; js "b"])%nat as Hlen by (simpl; lia).
  split; [exact Hlen|]. split; [reflexivity|].
  exact (regexArrayToString_injective _ _ Hlen Hlen eq_refl).
Defined.

Lemma single_pattern_roundtrip_witness :
  trim (js "a") = js "a" /\ js "a" <> [] /\ ~ json_array_text (js "a") /\
  parseRegexValue balanced_brackets (Some (regexArrayToString [js "a"]))
  = Normal {| format := FString; array := [js "a"]; raw := js "a";
              isValid := balanced_brackets (js "a"); error := None |}.
Proof.
  assert (trim (js "a") = js "a") as Ht by reflexivity.
  assert (js "a" <> []) as Hne by (vm_compute; discriminate).
  assert (~ json_array_text (js "a")) as Hn.
  { intros (H & _). vm_compute in H. discriminate H. }
  split; [exact Ht|]. split; [exact Hne|]. split; [exact Hn|].
  exact (single_pattern_roundtrip balanced_brackets _ Ht Hne Hn).
Defined.

Lemma single_pattern_collision_witness :
  (2 <= length [js "a"; js "b"])%nat /\
  parseRegexValue balanced_brackets
    (Some (regexArrayToString [regexArrayToString [js "a"; js "b"]]))
  = Normal {| format := FArray; array := [js "a"; js "b"];
              raw := regexArrayToString [js "a"; js "b"];
              isValid := true; error := None |}.
Proof.
  assert (2 <= length [js "a"; js "b"])%nat as Hlen by (simpl; lia).
  split; [exact Hlen|].
  exact (proj2 (single_pattern_collision balanced_brackets _ Hlen)).
Defined.

Lemma findMatchingPreset_found_witness :
  findMatchingPreset (js "1080p.*") [(js "HD", js "1080p.*")] = Some (js "HD") /\
  (js "HD", js "1080p.*") ∈ [(js "HD", js "1080p.*")].
Proof.
  assert (findMatchingPreset (js "1080p.*") [(js "HD", js "1080p.*")]
          = Some (js "HD")) as H by reflexivity.
  split; [exact H|].
  exact (proj2 (findMatchingPreset_found _ _) _ H).
Defined.

Lemma updatePatterns_diagnostics_witness :
  (length [js "a"] <= 1)%nat /\
  exists c',
    Editor.updatePatterns balanced_brackets [js "a"] Editor.initial = Normal c' /\
    Editor.errors c' !! 1%nat = None.
Proof.
  assert (length [js "a"] <= 1)%nat as Hlen by (simpl; lia).
  split; [exact Hlen|].
  destruct (updatePatterns_diagnostics balanced_brackets [js "a"] Editor.initial)
    as (c' & E & _ & _ & _ & _ & H).
  exists c'. split; [exact E|]. exact (H 1%nat Hlen).
Defined.

Lemma handleRemove_deletes_witness :
  [js "a"; js "b"; js "c"] !! 1%nat = Some (js "b") /\
  exists c',
    Editor.handleRemove balanced_brackets [js "a"; js "b"; js "c"] 1
      Editor.initial = Normal c' /\
    Editor.notified c' = [[js "a"; js "c"]] /\
    S (length (delete 1%nat [js "a"; js "b"; js "c"]))
    = length [js "a"; js "b"; js "c"].
Proof.
  split; [reflexivity|].
  destruct (handleRemove_deletes balanced_brackets [js "a"; js "b"; js "c"] 1
              Editor.initial) as (c' & E & Hn & _ & _ & _ & Hlen & _).
  exists c'. split; [exact E|]. split; [exact Hn|].
  exact (Hlen (js "b") eq_refl).
Defined.

Lemma handleAdd_appends_witness :
  (0 < length [js "a"])%nat /\
  exists c',
    Editor.handleAdd balanced_brackets [js "a"] Editor.initial = Normal c' /\
    Editor.notified c' = [[js "a"; []]] /\
    Editor.editingIndex c' = Some 1%nat /\
    Editor.errors c' !! 0%nat = diagnostic balanced_brackets [js "a"] 0.
Proof.
  assert (0 < length [js "a"])%nat as Hlen by (simpl; lia).
  split; [exact Hlen|].
  destruct (handleAdd_appends balanced_brackets [js "a"] Editor.initial)
    as (c' & E & Hn & Hi & _ & _ & H).
  exists c'. split; [exact E|]. split; [exact Hn|]. split; [exact Hi|].
  exact (H 0%nat Hlen).
Defined.

Lemma handleSaveEdit_commits_witness :
  (0 <= length [js "a"; js "b"])%nat /\
  exists c',
    Editor.handleSaveEdit balanced_brackets [js "a"; js "b"]
      {| Editor.editingIndex := Some 0%nat; Editor.editingValue := js "z";
         Editor.errors := ∅; Editor.notified := [] |}
    = Some (Normal c') /\
    Editor.notified c' = [[js "z"; js "b"]] /\
    Editor.editingIndex c' = None.
Proof.
  assert (0 <= length [js "a"; js "b"])%nat as Hlen by (simpl; lia).
  split; [exact Hlen|].
  destruct (handleSaveEdit_commits balanced_brackets [js "a"; js "b"]
              {| Editor.editingIndex := Some 0%nat; Editor.editingValue := js "z";
                 Editor.errors := ∅; Editor.notified := [] |}) as (_ & H).
  destruct (H 0%nat eq_refl Hlen) as (c' & E & Hn & Hi & _).
  exists c'. split; [exact E|]. split; [exact Hn|exact Hi].
Defined.

Lemma edit_then_save_or_cancel_witness :
  [js "a"; js "b"] !! 1%nat = Some (js "b") /\
  exists opened saved,
    Editor.handleEdit [js "a"; js "b"] 1 Editor.initial = Normal opened /\
    Editor.handleSaveEdit balanced_brackets [js "a"; js "b"] opened
    = Some (Normal saved) /\
    Editor.notified saved = [[js "a"; js "b"]].
Proof.
  split; [reflexivity|].
  destruct (edit_then_save_or_cancel balanced_brackets [js "a"; js "b"] 1
              (js "b") Editor.initial eq_refl)
    as (opened & saved & cancelled & E1 & _ & _ & E2 & Hn & _).
  exists opened, saved. split; [exact E1|]. split; [exact E2|exact Hn].
Defined.

Lemma handleInsertPreset_splices_witness :
  Editor.own_property [(js "HD", js "1080p.*")] (js "HD") = Some (js "1080p.*") /\
  js "1080p.*" <> [] /\
  exists c' newPatterns,
    Editor.handleInsertPreset balanced_brackets standard_prototype
      [(js "HD", js "1080p.*")] [js "a"; js "b"] (js "HD") 0 Editor.initial
    = Normal c' /\
    Editor.notified c' = Editor.notified Editor.initial ++ [newPatterns] /\
    length newPatterns = 3%nat /\
    newPatterns !! 1%nat = Some (js "1080p.*").
Proof.
  assert (js "1080p.*" <> []) as Hne by (vm_compute; discriminate).
  split; [reflexivity|]. split; [exact Hne|].
  destruct (handleInsertPreset_splices balanced_brackets standard_prototype
              [(js "HD", js "1080p.*")] [js "a"; js "b"] (js "HD") 0
              Editor.initial) as (H & _).
  destruct (H (js "1080p.*") eq_refl Hne)
    as (c' & new & E & Hn & Hlen & _ & Hv & _).
  exists c', new. split; [exact E|]. split; [exact Hn|].
  split; [exact Hlen|exact Hv].
Defined.

Lemma handleApplyPreset_replaces_witness :
  Editor.own_property [(js "HD", js "1080p.*")] (js "HD") = Some (js "1080p.*") /\
  js "1080p.*" <> [] /\ (1 < length [js "a"; js "b"])%nat /\
  exists c',
    Editor.handleApplyPreset balanced_brackets standard_prototype
      [(js "HD", js "1080p.*")] [js "a"; js "b"] (js "HD") (Some 1%nat)
      Editor.initial = Some (Normal c') /\
    Editor.notified c' = [[js "a"; js "1080p.*"]].
Proof.
  assert (js "1080p.*" <> []) as Hne by (vm_compute; discriminate).
  assert (1 < length [js "a"; js "b"])%nat as Hlen by (simpl; lia).
  split; [reflexivity|]. split; [exact Hne|]. split; [exact Hlen|].
  destruct (handleApplyPreset_replaces balanced_brackets standard_prototype
              [(js "HD", js "1080p.*")] [js "a"; js "b"] (js "HD")
              Editor.initial) as (H & _).
  destruct (H (js "1080p.*") eq_refl Hne) as (_ & Hat).
  destruct (Hat 1%nat Hlen) as (c' & E & Hn).
  exists c'. split; [exact E|exact Hn].
Defined.

Lemma move_down_then_up_witness :
  [js "x"; js "y"] !! 0%nat = Some (js "x") /\
  [js "x"; js "y"] !! 1%nat = Some (js "y") /\
  exists moved restored newPatterns,
    Editor.handleMoveDown balanced_brackets [js "x"; js "y"] 0 Editor.initial
    = Normal moved /\
    Editor.handleMoveUp balanced_brackets newPatterns 1 moved = Normal restored /\
    Editor.notified restored = [newPatterns; [js "x"; js "y"]].
Proof.
  split; [reflexivity|]. split; [reflexivity|].
  destruct (move_down_then_up balanced_brackets [js "x"; js "y"] 0
              (js "x") (js "y") Editor.initial eq_refl eq_refl)
    as (moved & restored & new & E1 & _ & _ & E2 & Hn).
  exists moved, restored, new. split; [exact E1|]. split; [exact E2|exact Hn].
Defined.

Lemma moves_rearrange_witness :
  exists c',
    Editor.handleMoveDown balanced_brackets [js "x"; js "y"] 0 Editor.initial
    = Normal c' /\
    (Editor.notified c' = Editor.notified Editor.initial \/
     exists newPatterns,
       Editor.notified c' = Editor.notified Editor.initial ++ [newPatterns] /\
       newPatterns ≡ₚ [js "x"; js "y"]).
Proof.
  destruct (updatePatterns_closed balanced_brackets [js "y"; js "x"]
              Editor.initial) as (c' & E & _).
  assert (Editor.handleMoveDown balanced_brackets [js "x"; js "y"] 0
            Editor.initial = Normal c') as H by exact E.
  exists c'. split; [exact H|].
  exact (moves_rearrange balanced_brackets _ _ _ _ (or_intror H)).
Defined.

Lemma save_then_load_witness :
  (2 <= length [js "a"; js "b"])%nat /\
  EnvConfig.fetchEnvVars balanced_brackets
    (EnvConfig.dataToSend
       {| EnvConfig.envVars := ∅; EnvConfig.regexFormat := FArray;
          EnvConfig.regexArray := [js "a"; js "b"] |})
  = Normal
      {| EnvConfig.envVars :=
           EnvConfig.dataToSend
             {| EnvConfig.envVars := ∅; EnvConfig.regexFormat := FArray;
                EnvConfig.regexArray := [js "a"; js "b"] |};
         EnvConfig.regexFormat := FArray;
         EnvConfig.regexArray := [js "a"; js "b"] |}.
Proof.
  assert (2 <= length [js "a"; js "b"])%nat as Hlen by (simpl; lia).
  split; [exact Hlen|].
  exact (save_then_load balanced_brackets
           {| EnvConfig.envVars := ∅; EnvConfig.regexFormat := FArray;
              EnvConfig.regexArray := [js "a"; js "b"] |} eq_refl Hlen).
Defined.

Lemma fetchEnvVars_result_witness :
  blank ((∅ : gmap jsstring jsstring) !! EnvConfig.TORRENT_FILTER_REGEX) = true /\
  exists st,
    EnvConfig.fetchEnvVars balanced_brackets ∅ = Normal st /\
    EnvConfig.regexFormat st = FArray /\
    EnvConfig.regexArray st = getDefaultRegexPatterns.
Proof.
  assert (blank ((∅ : gmap jsstring jsstring)
                   !! EnvConfig.TORRENT_FILTER_REGEX) = true) as Hb
    by reflexivity.
  split; [exact Hb|].
  destruct (fetchEnvVars_result balanced_brackets ∅)
    as (st & E & _ & _ & H & _).
  exists st. split; [exact E|]. exact (H Hb).
Defined.


Lemma load_malformed_then_save_witness :
  bracket_looking (trim (js "[1,2]")) /\
  JSON_parse (trim (js "[1,2]"))
  = Normal (JArray [JNumber (js "1"); JNumber (js "2")]) /\
  exists st,
    EnvConfig.fetchEnvVars balanced_brackets
      {[ EnvConfig.TORRENT_FILTER_REGEX := js "[1,2]" ]} = Normal st /\
    EnvConfig.regexArray st = [] /\
    EnvConfig.dataToSend st !! EnvConfig.TORRENT_FILTER_REGEX = Some [].
Proof.
  assert (bracket_looking (trim (js "[1,2]"))) as Hb by (split; reflexivity).
  assert (JSON_parse (trim (js "[1,2]"))
          = Normal (JArray [JNumber (js "1"); JNumber (js "2")])) as Hp
    by reflexivity.
  split; [exact Hb|]. split; [exact Hp|].
  destruct (load_malformed_then_save balanced_brackets
              {[ EnvConfig.TORRENT_FILTER_REGEX := js "[1,2]" ]}
              (js "[1,2]") _ (lookup_singleton_eq _ _) Hb Hp eq_refl)
    as (st & E & _ & Ha & Hk & _).
  exists st. split; [exact E|]. split; [exact Ha|exact Hk].
Defined.

Lemma convertToPriorityList_then_save_witness :
  EnvConfig.fetchEnvVars balanced_brackets
    {[ EnvConfig.TORRENT_FILTER_REGEX := js " a " ]}
  = Normal {| EnvConfig.envVars := {[ EnvConfig.TORRENT_FILTER_REGEX := js " a " ]};
              EnvConfig.regexFormat := FString;
              EnvConfig.regexArray := [js "a"] |} /\
  EnvConfig.regexArray
    (EnvConfig.convertToPriorityList
       {| EnvConfig.envVars := {[ EnvConfig.TORRENT_FILTER_REGEX := js " a " ]};
          EnvConfig.regexFormat := FString;
          EnvConfig.regexArray := [js "a"] |})
  = [js "a"].
Proof.
  assert (EnvConfig.fetchEnvVars balanced_brackets
            {[ EnvConfig.TORRENT_FILTER_REGEX := js " a " ]}
          = Normal {| EnvConfig.envVars :=
                        {[ EnvConfig.TORRENT_FILTER_REGEX := js " a " ]};
                      EnvConfig.regexFormat := FString;
                      EnvConfig.regexArray := [js "a"] |}) as H.
  { unfold EnvConfig.fetchEnvVars. rewrite lookup_singleton_eq. reflexivity. }
  split; [exact H|].
  destruct (convertToPriorityList_then_save balanced_brackets
              {| EnvConfig.envVars :=
                   {[ EnvConfig.TORRENT_FILTER_REGEX := js " a " ]};
                 EnvConfig.regexFormat := FString;
                 EnvConfig.regexArray := [js "a"] |}) as (_ & _ & Hc).
  exact (Hc _ H eq_refl).
Defined.

Lemma getCurrentPresetName_matches_saved_witness :
  EnvConfig.getCurrentPresetName
    [{| EnvConfig.id := js "p1"; EnvConfig.name := js "HD";
        EnvConfig.pattern := js "1080p.*"; EnvConfig.isDefault := true;
        EnvConfig.description := None |}]
    {| EnvConfig.envVars := ∅; EnvConfig.regexFormat := FArray;
       EnvConfig.regexArray := [js "1080p.*"] |}
  = Some (js "HD") /\
  exists preset,
    EnvConfig.name preset = js "HD" /\
    EnvConfig.dataToSend
      {| EnvConfig.envVars := ∅; EnvConfig.regexFormat := FArray;
         EnvConfig.regexArray := [js "1080p.*"] |}
      !! EnvConfig.TORRENT_FILTER_REGEX
    = Some (EnvConfig.pattern preset).
Proof.
  assert (EnvConfig.getCurrentPresetName
            [{| EnvConfig.id := js "p1"; EnvConfig.name := js "HD";
                EnvConfig.pattern := js "1080p.*"; EnvConfig.isDefault := true;
                EnvConfig.description := None |}]
            {| EnvConfig.envVars := ∅; EnvConfig.regexFormat := FArray;
               EnvConfig.regexArray := [js "1080p.*"] |}
          = Some (js "HD")) as H by reflexivity.
  split; [exact H|].
  destruct (getCurrentPresetName_matches_saved _ _ _ H)
    as (preset & _ & Hn & Hk).
  exists preset. split; [exact Hn|exact Hk].
Defined.

End MoreInstances.
